(** * Second_Solution.py: the QueryExecutor class and its driver

    A shallow embedding of [src/Second_Solution.py].  Python strings are
    modelled as [string] (code points below 256, which covers every literal
    of the script), console output and database calls as a trace of events,
    exceptions as an outcome type, and the psycopg2 driver as an interface
    whose answers are not under the control of the script. *)

From Stdlib Require Import String Ascii List ZArith Lia Bool Arith.
From Stdlib Require Import Numbers.DecimalString.
Import ListNotations.
Open Scope string_scope.

(** ** Python strings *)

Module PyStr.

(** The newline character and the double quote, as one-character strings. *)
Definition nl : string := String (ascii_of_nat 10) EmptyString.
Definition dquote : string := String (ascii_of_nat 34) EmptyString.

(** [str.isspace] on one character, which is also what the regular
    expression class [\s] matches on a [str] pattern: TAB, LF, VT, FF, CR,
    the four separators FS, GS, RS, US, the space, NEL and the no-break
    space. *)
Definition isspace (c : ascii) : bool :=
  let n := nat_of_ascii c in
  ((9 <=? n)%nat && (n <=? 13)%nat) || ((28 <=? n)%nat && (n <=? 32)%nat)
  || (n =? 133)%nat || (n =? 160)%nat.

(** [len(s)] is [String.length s]. *)

(** [s[:n]]: the first [n] characters, or all of [s] when it is shorter. *)
Fixpoint slice_to (n : nat) (s : string) : string :=
  match n, s with
  | O, _ => EmptyString
  | S _, EmptyString => EmptyString
  | S n', String c s' => String c (slice_to n' s')
  end.

(** [s.replace(old, new)] for one-character [old] and [new]. *)
Fixpoint replace_char (old new : ascii) (s : string) : string :=
  match s with
  | EmptyString => EmptyString
  | String c s' =>
      String (if Ascii.eqb c old then new else c) (replace_char old new s')
  end.

(** [re.sub(r'\s+', ' ', s)]: the scan goes left to right and every
    maximal run of whitespace is one match, replaced by one space.
    [in_run] tells that the previous character belonged to the match being
    consumed. *)
Fixpoint sub_ws_from (in_run : bool) (s : string) : string :=
  match s with
  | EmptyString => EmptyString
  | String c s' =>
      if isspace c
      then if in_run then sub_ws_from true s'
           else String " " (sub_ws_from true s')
      else String c (sub_ws_from false s')
  end.

Definition re_sub_ws (s : string) : string := sub_ws_from false s.

(** [s.lstrip()], [s.rstrip()] and [s.strip()] with no argument. *)
Fixpoint lstrip (s : string) : string :=
  match s with
  | EmptyString => EmptyString
  | String c s' => if isspace c then lstrip s' else s
  end.

Fixpoint rstrip (s : string) : string :=
  match s with
  | EmptyString => EmptyString
  | String c s' =>
      match rstrip s' with
      | EmptyString => if isspace c then EmptyString else String c EmptyString
      | r => String c r
      end
  end.

Definition strip (s : string) : string := rstrip (lstrip s).

(** [sep.join(xs)]. *)
Fixpoint join (sep : string) (xs : list string) : string :=
  match xs with
  | [] => EmptyString
  | [x] => x
  | x :: rest => x ++ sep ++ join sep rest
  end.

(** [str(n)] for a counter, which is never negative, and for any integer:
    decimal digits, with a minus sign in front of a negative number. *)
Definition str_nat (n : nat) : string := NilZero.string_of_uint (Nat.to_uint n).
Definition str_int (z : Z) : string := NilZero.string_of_int (Z.to_int z).

(** Every character of [s] satisfies [p]. *)
Fixpoint forallb_str (p : ascii -> bool) (s : string) : bool :=
  match s with
  | EmptyString => true
  | String c s' => p c && forallb_str p s'
  end.

End PyStr.

Import PyStr.

(** ** Values, exceptions and observable events *)

(** A value of a fetched row, as far as the script looks at it: it is only
    ever passed to [str]. *)
Inductive pyvalue : Type :=
| PyNone
| PyBool (b : bool)
| PyInt (z : Z)
| PyStr (s : string).

(** [str(v)]. *)
Definition str (v : pyvalue) : string :=
  match v with
  | PyNone => "None"
  | PyBool true => "True"
  | PyBool false => "False"
  | PyInt z => str_int z
  | PyStr s => s
  end.

(** Exceptions deriving from [Exception]: [psycopg2.Error] (and its
    subclasses) and all the others.  [str(e)] is the message. *)
Inductive error : Type :=
| DbError (message : string)
| OtherError (message : string).

Definition str_error (e : error) : string :=
  match e with DbError m => m | OtherError m => m end.

(** What can propagate out of a block: an [Exception], or [SystemExit],
    which derives from [BaseException] only. *)
Inductive exn : Type :=
| Exc (e : error)
| SystemExit (code : Z).

Inductive outcome (A : Type) : Type :=
| Ok (a : A)
| Raise (x : exn).
Arguments Ok {A} a.
Arguments Raise {A} x.

(** Handles of psycopg2 objects. *)
Definition pg_connection := nat.
Definition pg_cursor := nat.

(** The two ways [psycopg2.connect] is called: with keyword arguments, or
    with a connection string; both with [client_encoding]. *)
Inductive conn_args : Type :=
| ConnKeywords (dbname user password host port client_encoding : string)
| ConnString (dsn client_encoding : string).

Definition client_encoding_of (a : conn_args) : string :=
  match a with
  | ConnKeywords _ _ _ _ _ enc => enc
  | ConnString _ enc => enc
  end.

(** What the process does that can be seen from outside, in order. *)
Inductive event : Type :=
| Print (text : string)                 (* print(text) on sys.stdout *)
| Traceback (e : error)                 (* traceback.print_exc() on sys.stderr *)
| Connect (args : conn_args)            (* psycopg2.connect(...) *)
| SetAutocommit (c : pg_connection) (b : bool)
| CursorOpen (c : pg_connection)        (* connection.cursor() *)
| Execute (cur : pg_cursor) (sql : string)
| Fetchall (cur : pg_cursor)
| CursorClose (cur : pg_cursor)         (* leaving the with block *)
| ConnClose (c : pg_connection).        (* connection.close() *)

(** The arguments of the [print] calls of a trace, in order. *)
Fixpoint prints (evs : list event) : list string :=
  match evs with
  | [] => []
  | Print s :: rest => s :: prints rest
  | _ :: rest => prints rest
  end.

(** The characters written on sys.stdout: [print] adds a newline. *)
Fixpoint stdout_text (evs : list event) : string :=
  match evs with
  | [] => EmptyString
  | Print s :: rest => s ++ nl ++ stdout_text rest
  | _ :: rest => stdout_text rest
  end.

(** The statements sent with [cursor.execute], in order. *)
Fixpoint statements (evs : list event) : list string :=
  match evs with
  | [] => []
  | Execute _ sql :: rest => sql :: statements rest
  | _ :: rest => statements rest
  end.

(** The arguments of the [psycopg2.connect] calls of a trace. *)
Fixpoint connects (evs : list event) : list conn_args :=
  match evs with
  | [] => []
  | Connect a :: rest => a :: connects rest
  | _ :: rest => connects rest
  end.

(** ** The psycopg2 driver

    The answers of the database are not decided by the script.  [D] is
    the state of the driver and of the server behind it; every call may
    raise an [Exception].  Closing a cursor or a connection does not
    raise (closing twice is accepted by psycopg2). *)
Record psycopg2 (D : Type) : Type := {
  pg_connect : conn_args -> D -> (error + pg_connection) * D;
  pg_set_autocommit : pg_connection -> bool -> D -> (error + unit) * D;
  pg_open_cursor : pg_connection -> D -> (error + pg_cursor) * D;
  pg_quote_ident : string -> pg_connection -> D -> error + string;
  pg_execute : pg_cursor -> string -> D -> (error + unit) * D;
  pg_description : pg_cursor -> D -> option (list string);
  pg_fetchall : pg_cursor -> D -> (error + list (list pyvalue)) * D;
  pg_close_cursor : pg_cursor -> D -> D;
  pg_close : pg_connection -> D -> D
}.
Arguments pg_connect {D}.
Arguments pg_set_autocommit {D}.
Arguments pg_open_cursor {D}.
Arguments pg_quote_ident {D}.
Arguments pg_execute {D}.
Arguments pg_description {D}.
Arguments pg_fetchall {D}.
Arguments pg_close_cursor {D}.
Arguments pg_close {D}.

(** ** Statements with effects

    A block of statements maps the driver state to its outcome, the new
    driver state and the events it caused. *)
Definition M (D A : Type) : Type := D -> outcome A * D * list event.

Definition result_of {D A} (r : outcome A * D * list event) : outcome A := fst (fst r).
Definition state_of {D A} (r : outcome A * D * list event) : D := snd (fst r).
Definition events_of {D A} (r : outcome A * D * list event) : list event := snd r.

Definition ret {D A} (a : A) : M D A := fun d => (Ok a, d, []).

Definition raise {D A} (x : exn) : M D A := fun d => (Raise x, d, []).

Definition bind {D A B} (c : M D A) (k : A -> M D B) : M D B :=
  fun d =>
    match c d with
    | (Ok a, d1, ev1) =>
        let '(r, d2, ev2) := k a d1 in (r, d2, (ev1 ++ ev2)%list)
    | (Raise x, d1, ev1) => (Raise x, d1, ev1)
    end.

Notation "x <- c1 ;; c2" := (bind c1 (fun x => c2))
  (at level 61, c1 at next level, right associativity).
Notation "c1 ;; c2" := (bind c1 (fun _ => c2))
  (at level 61, right associativity).

(** [try: body / except psycopg2.Error as e: handler e]. *)
Definition try_except_db {D A} (body : M D A) (handler : error -> M D A) : M D A :=
  fun d =>
    match body d with
    | (Raise (Exc (DbError m)), d1, ev1) =>
        let '(r, d2, ev2) := handler (DbError m) d1 in (r, d2, (ev1 ++ ev2)%list)
    | other => other
    end.

(** [try: body / except Exception as e: handler e]. *)
Definition try_except_Exception {D A} (body : M D A) (handler : error -> M D A) : M D A :=
  fun d =>
    match body d with
    | (Raise (Exc e), d1, ev1) =>
        let '(r, d2, ev2) := handler e d1 in (r, d2, (ev1 ++ ev2)%list)
    | other => other
    end.

(** [try: body / finally: cleanup]: the cleanup always runs; what the body
    raised goes on afterwards unless the cleanup raises itself. *)
Definition try_finally {D A} (body : M D A) (cleanup : M D unit) : M D A :=
  fun d =>
    let '(r, d1, ev1) := body d in
    let '(rc, d2, ev2) := cleanup d1 in
    (match rc with Ok _ => r | Raise x => Raise x end, d2, (ev1 ++ ev2)%list).

(** The outcome of a block as a value, for a caller that looks at it. *)
Definition attempt {D A} (c : M D A) : M D (outcome A) :=
  fun d => let '(r, d1, ev1) := c d in (Ok r, d1, ev1).

Definition resume {D A} (r : outcome A) : M D A :=
  match r with Ok a => ret a | Raise x => raise x end.

Definition emit {D} (e : event) : M D unit := fun d => (Ok tt, d, [e]).

(** [print(text)], [traceback.print_exc()] while [e] is being handled, and
    [sys.exit(code)]. *)
Definition print {D} (text : string) : M D unit := emit (Print text).
Definition print_exc {D} (e : error) : M D unit := emit (Traceback e).
Definition sys_exit {D A} (code : Z) : M D A := raise (SystemExit code).

(** The exit status of the process, from how the script ended: 0 at the
    end of the script, the argument of [sys.exit], 1 for an exception
    nobody caught. *)
Definition exit_status {A} (r : outcome A) : Z :=
  match r with
  | Ok _ => 0
  | Raise (SystemExit code) => code
  | Raise (Exc _) => 1
  end.

Definition lift_answer {A} (a : error + A) : outcome A :=
  match a with inl e => Raise (Exc e) | inr v => Ok v end.

(** ** class QueryExecutor *)

(** Class attributes. *)
Definition PG_USER : string := "postgres".
Definition PG_PASSWORD : string := EmptyString.
Definition PG_HOST : string := "localhost".
Definition PG_PORT_NUMBER : string := "5432".

(** [_SUPABASE_CONN = None]: the class attribute as the script leaves it.
    The methods that read it take its current value as an argument. *)
Definition _SUPABASE_CONN : option string := None.

(** Instance attributes. *)
Record QueryExecutor : Type := {
  _schema_name : string;
  _dbname : string;
  connection : option pg_connection
}.

Definition set_connection (self : QueryExecutor) (c : option pg_connection) : QueryExecutor :=
  {| _schema_name := _schema_name self; _dbname := _dbname self; connection := c |}.

(** Default of the [schema_name] parameter of the constructor and of the
    [print_results] parameter of [execute_query]. *)
Definition schema_name_default : string := "wine".
Definition print_results_default : bool := true.

Definition fatal_text : string := nl ++ "Exiting due to SQL error.".
Definition closed_text : string := "Database connection closed.".

Section Executor.

Context {D : Type} (pg : psycopg2 D).

(** Calls into psycopg2; each leaves its event in the trace. *)
Definition connect (args : conn_args) : M D pg_connection :=
  fun d => let '(a, d1) := pg_connect pg args d in (lift_answer a, d1, [Connect args]).

(** [conn.autocommit = b]; on [None] the attribute assignment fails. *)
Definition set_autocommit (conn : option pg_connection) (b : bool) : M D unit :=
  match conn with
  | None => raise (Exc (OtherError "'NoneType' object has no attribute 'autocommit'"))
  | Some c =>
      fun d => let '(a, d1) := pg_set_autocommit pg c b d in
               (lift_answer a, d1, [SetAutocommit c b])
  end.

(** [conn.cursor()]. *)
Definition open_cursor (conn : option pg_connection) : M D pg_cursor :=
  match conn with
  | None => raise (Exc (OtherError "'NoneType' object has no attribute 'cursor'"))
  | Some c =>
      fun d => let '(a, d1) := pg_open_cursor pg c d in
               (lift_answer a, d1, [CursorOpen c])
  end.

Definition close_cursor (cur : pg_cursor) : M D unit :=
  fun d => (Ok tt, pg_close_cursor pg cur d, [CursorClose cur]).

(** [with conn.cursor() as cursor: body cursor]. *)
Definition with_cursor {A} (conn : option pg_connection) (body : pg_cursor -> M D A) : M D A :=
  cursor <- open_cursor conn ;;
  try_finally (body cursor) (close_cursor cursor).

(** [psycopg2.extensions.quote_ident(name, conn)]. *)
Definition quote_ident (name : string) (conn : option pg_connection) : M D string :=
  match conn with
  | None => raise (Exc (OtherError "argument 2 must be a connection or a cursor"))
  | Some c => fun d => (lift_answer (pg_quote_ident pg name c d), d, [])
  end.

Definition cursor_execute (cur : pg_cursor) (sql : string) : M D unit :=
  fun d => let '(a, d1) := pg_execute pg cur sql d in (lift_answer a, d1, [Execute cur sql]).

(** [cursor.description], with the [name] of each column. *)
Definition cursor_description (cur : pg_cursor) : M D (option (list string)) :=
  fun d => (Ok (pg_description pg cur d), d, []).

Definition cursor_fetchall (cur : pg_cursor) : M D (list (list pyvalue)) :=
  fun d => let '(a, d1) := pg_fetchall pg cur d in (lift_answer a, d1, [Fetchall cur]).

Definition connection_close (c : pg_connection) : M D unit :=
  fun d => (Ok tt, pg_close pg c d, [ConnClose c]).

(** [_handle_sql_exception(self, e)], called while [e] is being handled. *)
Definition _handle_sql_exception {A} (e : error) : M D A :=
  print_exc e ;;
  print fatal_text ;;
  sys_exit 0.

(** [_initialize(self)]; the new value of [self] is returned.  In the
    first handler [self] is the object as it was before the block, which
    nothing can see since the handler does not return. *)
Definition _initialize (supabase_conn : option string) (self : QueryExecutor) : M D QueryExecutor :=
  self <- try_except_db
            (conn <- match supabase_conn with
                     | None =>
                         connect (ConnKeywords (_dbname self) PG_USER PG_PASSWORD
                                               PG_HOST PG_PORT_NUMBER "UTF8")
                     | Some dsn => connect (ConnString dsn "UTF8")
                     end ;;
             let self := set_connection self (Some conn) in
             set_autocommit (connection self) true ;;
             ret self)
            (fun e => _handle_sql_exception e) ;;
  print "Successfully connected to Postgres." ;;
  try_except_db
    (with_cursor (connection self) (fun cursor =>
       ident <- quote_ident (_schema_name self) (connection self) ;;
       cursor_execute cursor ("SET search_path TO " ++ ident ++ ", public;")))
    (fun e => _handle_sql_exception e) ;;
  print ("Using schema '" ++ _schema_name self ++ "'." ++ nl) ;;
  ret self.

(** [QueryExecutor(dbname, schema_name)]. *)
Definition __init__ (supabase_conn : option string) (dbname schema_name : string) : M D QueryExecutor :=
  let self := {| _schema_name := schema_name; _dbname := dbname; connection := None |} in
  _initialize supabase_conn self.

Definition get_connection (self : QueryExecutor) : option pg_connection := connection self.

(** The loop over the fetched rows, with its counter. *)
Fixpoint print_rows (results : list (list pyvalue)) (row_count : nat) : M D nat :=
  match results with
  | [] => ret row_count
  | row :: rest =>
      let row_count := S row_count in
      print (join " | " (map str row)) ;;
      print_rows rest row_count
  end.

(** [_print_result_set(self, cursor)]. *)
Definition _print_result_set (cursor : pg_cursor) : M D unit :=
  print "Result set:" ;;
  try_except_db
    (description <- cursor_description cursor ;;
     match description with
     | None => print "(No results to display)"
     | Some headers =>
         print (join " | " headers) ;;
         results <- cursor_fetchall cursor ;;
         row_count <- print_rows results 0 ;;
         print ("Number of rows: " ++ str_nat row_count)
     end)
    (fun e => _handle_sql_exception e).

(** The text between the quotes of the execution message. *)
Definition execution_text (query : string) : string :=
  let msg := if (55 <? String.length query)%nat
             then slice_to 55 query ++ "..."
             else query in
  strip (re_sub_ws (replace_char (ascii_of_nat 10) " "%char msg)).

Definition execution_message (query : string) : string :=
  "Executed the query " ++ dquote ++ execution_text query ++ dquote.

(** [_print_execution_message(self, query)]. *)
Definition _print_execution_message (query : string) : M D unit :=
  print (execution_message query).

(** [execute(self, query)]. *)
Definition execute (self : QueryExecutor) (query : string) : M D unit :=
  try_except_db
    (with_cursor (connection self) (fun cursor => cursor_execute cursor query))
    (fun e => _handle_sql_exception e) ;;
  _print_execution_message query.

(** [execute_query(self, query, print_results)]. *)
Definition execute_query (self : QueryExecutor) (query : string) (print_results : bool) : M D unit :=
  try_except_db
    (with_cursor (connection self) (fun cursor =>
       cursor_execute cursor query ;;
       _print_execution_message query ;;
       if print_results then _print_result_set cursor else ret tt))
    (fun e => _handle_sql_exception e).

(** [close(self)]: a connection object is always true, so the test is on
    [None]. *)
Definition close (self : QueryExecutor) : M D unit :=
  match connection self with
  | Some c =>
      connection_close c ;;
      print closed_text
  | None => ret tt
  end.

End Executor.

(** ** The driver *)

(** A triple-quoted literal that breaks the line right after the opening
    quotes: every listed line is preceded by a newline; the last one is
    the indentation in front of the closing quotes. *)
Definition triple_quoted (lines : list string) : string :=
  fold_right (fun line rest => nl ++ line ++ rest) EmptyString lines.

Definition DB_NAME : string := "postgres".

Definition query_7_9E : string := triple_quoted
  [ "            SELECT s.SUPNAME, s.SUPNR";
    "            FROM supplier s";
    "            WHERE NOT EXISTS (";
    "                SELECT 1 FROM purchase_order p WHERE s.SUPNR = p.SUPNR";
    "            )";
    "        " ].

Definition query_7_11E : string := triple_quoted
  [ "            SELECT SUM(available_quantity) AS TOTAL_QUANTITY";
    "            FROM product";
    "            WHERE prodtype = 'sparkling'";
    "        " ].

Definition query_7_12E : string := triple_quoted
  [ "            SELECT s.supnr, s.supname, COUNT(po.ponr) AS total_num_of_outstanding_orders";
    "            FROM supplier s";
    "            LEFT JOIN purchase_order po ON s.supnr = po.supnr";
    "            GROUP BY s.supnr, s.supname";
    "            ORDER BY s.supnr";
    "        " ].

Definition query_7_13E : string := triple_quoted
  [ "            SELECT s.supnr, COUNT(s.prodnr) AS num_of_product";
    "            FROM supplies s";
    "            GROUP BY s.supnr";
    "            HAVING COUNT(s.prodnr) > 5";
    "        " ].

Definition query_7_14E : string := triple_quoted
  [ "            SELECT s.supnr, s.supname, AVG(sp.deliv_period) AS average_delivery_time";
    "            FROM supplier s";
    "            JOIN supplies sp ON s.supnr = sp.supnr";
    "            GROUP BY s.supnr, s.supname";
    "            ORDER BY s.supnr";
    "        " ].

Definition query_7_15E : string := triple_quoted
  [ "            SELECT DISTINCT ponr";
    "            FROM po_line";
    "            WHERE prodnr IN (";
    "                SELECT p.prodnr";
    "                FROM product p";
    "                WHERE prodtype = 'sparkling' OR prodtype = 'red'";
    "            )";
    "        " ].

Definition query_7_16E : string := triple_quoted
  [ "            SELECT p1.prodnr";
    "            FROM product p1";
    "            WHERE 3 >= (";
    "                SELECT COUNT(p2.prodnr)";
    "                FROM product p2";
    "                WHERE p2.prodnr <= p1.prodnr";
    "            )";
    "            ORDER BY p1.prodnr ASC";
    "        " ].

Definition query_7_17E : string := triple_quoted
  [ "            SELECT prodname, available_quantity";
    "            FROM product";
    "            WHERE available_quantity >= ALL (";
    "                SELECT available_quantity";
    "                FROM product";
    "                WHERE available_quantity IS NOT NULL";
    "            )";
    "        " ].

Definition query_7_18E : string := triple_quoted
  [ "            SELECT s1.supname, s1.supnr";
    "            FROM supplier s1";
    "            WHERE NOT EXISTS(";
    "                SELECT 1";
    "                FROM supplier s2";
    "                WHERE s2.supnr < s1.supnr";
    "            )";
    "        " ].

Definition slashes : string := "////////////////////////////////".

Section Driver.

Context {D : Type} (pg : psycopg2 D).

(** The three [print] calls in front of a query. *)
Definition banner (title : string) : M D unit :=
  print slashes ;;
  print title ;;
  print slashes.

(** The statements of the [try] block after the assignment of [qe]. *)
Definition exercises (qe : QueryExecutor) : M D unit :=
  banner "//////////// Question 7.9E  ////" ;;
  execute_query pg qe query_7_9E print_results_default ;;
  banner "//////////// Question 7.11E ////" ;;
  execute_query pg qe query_7_11E print_results_default ;;
  banner "//////////// Question 7.12E ////" ;;
  execute_query pg qe query_7_12E print_results_default ;;
  banner "//////////// Question 7.13E ////" ;;
  execute_query pg qe query_7_13E print_results_default ;;
  banner "//////////// Question 7.14E ////" ;;
  execute_query pg qe query_7_14E print_results_default ;;
  banner "//////////// Question 7.15E ////" ;;
  execute_query pg qe query_7_15E print_results_default ;;
  banner "//////////// Question 7.16E ////" ;;
  execute_query pg qe query_7_16E print_results_default ;;
  banner "//////////// Question 7.17E ////" ;;
  execute_query pg qe query_7_17E print_results_default ;;
  banner "//////////// Question 7.18E ////" ;;
  execute_query pg qe query_7_18E print_results_default.

(** The whole [try] block: the construction, then the exercises. *)
Definition try_block : M D unit :=
  qe <- __init__ pg _SUPABASE_CONN DB_NAME "wine" ;;
  exercises qe.

(** The handler of [except Exception as e]. *)
Definition unexpected (e : error) : M D unit :=
  print ("An unexpected error occurred: " ++ str_error e) ;;
  print_exc e.

(** The [finally] block: [if qe: qe.close()]; an instance is always true. *)
Definition cleanup (qe : option QueryExecutor) : M D unit :=
  match qe with
  | Some self => close pg self
  | None => ret tt
  end.

(** The main block.  The variable [qe] is [None] until the constructor has
    returned; the outcome of the construction is looked at to know which
    value the [finally] block finds in it, and the [try] block goes on
    from that outcome. *)
Definition main : M D unit :=
  constructed <- attempt (__init__ pg _SUPABASE_CONN DB_NAME "wine") ;;
  let qe := match constructed with Ok self => Some self | Raise _ => None end in
  try_finally
    (try_except_Exception
       (self <- resume constructed ;; exercises self)
       unexpected)
    (cleanup qe).

End Driver.

(** ** A scripted database, to run the script on

    The answers are read from a list: [connect] and each executed
    statement take the next one; with none left, a call succeeds and a
    statement has no result set. *)
Module Scripted.

Inductive reply : Type :=
| Fails (e : error)                                       (* the call raises *)
| Command                                                 (* no result set *)
| ResultSet (cols : list string) (rows : list (list pyvalue))
| BrokenResultSet (cols : list string) (e : error).       (* fetching raises *)

Record session : Type := {
  pending : list reply;
  description : option (list string);
  fetchable : error + list (list pyvalue);
  closes : nat                                            (* calls of close() *)
}.

Definition next (s : session) : option reply * session :=
  match pending s with
  | [] => (None, s)
  | r :: rest =>
      (Some r, {| pending := rest; description := description s;
                  fetchable := fetchable s; closes := closes s |})
  end.

Definition no_result : error + list (list pyvalue) :=
  inl (DbError "no results to fetch").

Definition with_result (s : session) (desc : option (list string))
    (rows : error + list (list pyvalue)) : session :=
  {| pending := pending s; description := desc; fetchable := rows; closes := closes s |}.

(** PQescapeIdentifier: the name between double quotes, each double quote
    inside it doubled. *)
Fixpoint double_quotes (s : string) : string :=
  match s with
  | EmptyString => EmptyString
  | String c s' =>
      if Ascii.eqb c (ascii_of_nat 34)
      then String c (String c (double_quotes s'))
      else String c (double_quotes s')
  end.

Definition escape_identifier (name : string) : string :=
  dquote ++ double_quotes name ++ dquote.

Definition driver : psycopg2 session := {|
  pg_connect := fun _ s =>
    match next s with
    | (Some (Fails e), s1) => (inl e, s1)
    | (_, s1) => (inr 1%nat, s1)
    end;
  pg_set_autocommit := fun _ _ s => (inr tt, s);
  pg_open_cursor := fun _ s => (inr 1%nat, s);
  pg_quote_ident := fun name _ _ => inr (escape_identifier name);
  pg_execute := fun _ _ s =>
    match next s with
    | (Some (Fails e), s1) => (inl e, s1)
    | (Some (ResultSet cols rows), s1) => (inr tt, with_result s1 (Some cols) (inr rows))
    | (Some (BrokenResultSet cols e), s1) => (inr tt, with_result s1 (Some cols) (inl e))
    | (_, s1) => (inr tt, with_result s1 None no_result)
    end;
  pg_description := fun _ s => description s;
  pg_fetchall := fun _ s => (fetchable s, s);
  pg_close_cursor := fun _ s => s;
  pg_close := fun _ s =>
    {| pending := pending s; description := description s;
       fetchable := fetchable s; closes := S (closes s) |}
|}.

Definition start (script : list reply) : session :=
  {| pending := script; description := None; fetchable := no_result; closes := 0 |}.

End Scripted.

(** ** Runs on the scripted database, used as examples *)

(** A constructed executor on the scripted database, as the constructor
    returns it. *)
Definition scripted_qe : QueryExecutor :=
  {| _schema_name := "wine"; _dbname := "postgres"; connection := Some 1%nat |}.

(** Construct an executor, then call [close] on it twice. *)
Definition constructed_then_closed_twice : outcome unit * Scripted.session * list event :=
  (qe <- __init__ Scripted.driver _SUPABASE_CONN "postgres" "wine" ;;
   close Scripted.driver qe ;;
   close Scripted.driver qe) (Scripted.start []).

(** The state of the scripted database after a statement that returned the
    columns A and B and two rows. *)
Definition two_rows : Scripted.session :=
  Scripted.with_result (Scripted.start []) (Some ["A"; "B"])
    (inr [[PyInt 1; PyStr "x"]; [PyInt 2; PyStr "y"]]).

(** Scripts: everything succeeds and the first query returns two rows; the
    first query raises an exception that is not a database error; the
    driver cannot be reached at all. *)
Definition script_two_rows : list Scripted.reply :=
  [Scripted.Command; Scripted.Command;
   Scripted.ResultSet ["A"; "B"] [[PyInt 1; PyStr "x"]; [PyInt 2; PyStr "y"]]].

Definition script_unexpected : list Scripted.reply :=
  [Scripted.Command; Scripted.Command; Scripted.Fails (OtherError "out of memory")].

(** The first query names a table that does not exist. *)
Definition script_failing_query : list Scripted.reply :=
  [Scripted.Command; Scripted.Command;
   Scripted.Fails (DbError "relation does not exist")].

Definition script_no_driver : list Scripted.reply :=
  [Scripted.Fails (OtherError "invalid dsn")].

(** ** The execution message as the specification words it

    Truncate to 55 characters and append an ellipsis when something was cut,
    replace newlines by spaces, collapse every run of whitespace into one
    space, trim both ends. *)
Module Spec.

Definition truncated (raw : string) : string :=
  if (String.length raw <=? 55)%nat then raw else slice_to 55 raw ++ "...".

Definition newlines_to_spaces (s : string) : string :=
  replace_char (ascii_of_nat 10) " "%char s.

(** One space for a whole run: at a whitespace character the rest of the
    run is skipped.  The fuel is the number of characters left. *)
Fixpoint collapse_fuel (fuel : nat) (s : string) : string :=
  match fuel with
  | O => EmptyString
  | S fuel' =>
      match s with
      | EmptyString => EmptyString
      | String c s' =>
          if isspace c
          then String " " (collapse_fuel fuel' (lstrip s'))
          else String c (collapse_fuel fuel' s')
      end
  end.

Definition collapse_whitespace (s : string) : string :=
  collapse_fuel (String.length s) s.

Definition trim (s : string) : string := rstrip (lstrip s).

Definition normalized (raw : string) : string :=
  trim (collapse_whitespace (newlines_to_spaces (truncated raw))).

Definition message (raw : string) : string :=
  "Executed the query " ++ dquote ++ normalized raw ++ dquote.

End Spec.

(** ** Predicates used in the statements *)

(** The characters [re.sub] leaves: anything but whitespace, and the space. *)
Definition tidy (c : ascii) : bool := negb (isspace c) || Ascii.eqb c " "%char.

(** A string that [print] shows as one line. *)
Definition one_line (s : string) : bool :=
  forallb_str (fun c => negb (Ascii.eqb c (ascii_of_nat 10))) s.

(** How many times [text] was printed. *)
Definition times_printed (text : string) (evs : list event) : nat :=
  count_occ string_dec (prints evs) text.

(** The line printed for a fetched row. *)
Definition row_line (row : list pyvalue) : string := join " | " (map str row).

(** A block that leaves the process, if it does, with status 0. *)
Definition exits_with_zero {D A} (c : M D A) : Prop :=
  forall d, match result_of (c d) with
            | Raise (SystemExit code) => code = 0%Z
            | _ => True
            end.

(** A block out of which, moreover, no [Exception] comes. *)
Definition lets_nothing_out {D A} (c : M D A) : Prop :=
  forall d, match result_of (c d) with
            | Raise (SystemExit code) => code = 0%Z
            | Raise (Exc _) => False
            | Ok _ => True
            end.

(** A block that never raises a database error to its caller. *)
Definition keeps_db_errors {D A} (c : M D A) : Prop :=
  forall d m, result_of (c d) <> Raise (Exc (DbError m)).

(** The arguments [psycopg2.connect] is called with. *)
Definition connect_arguments (supabase_conn : option string) (dbname : string) : conn_args :=
  match supabase_conn with
  | None => ConnKeywords dbname "postgres" EmptyString "localhost" "5432" "UTF8"
  | Some dsn => ConnString dsn "UTF8"
  end.

(** Two calls of [close] in a row. *)
Definition close_twice {D} (pg : psycopg2 D) (self : QueryExecutor) : M D unit :=
  close pg self ;; close pg self.

(** What the body of [execute_query] does after the statement and the
    message. *)
Definition rendering {D} (pg : psycopg2 D) (print_results : bool) (cur : pg_cursor) : M D unit :=
  if print_results then _print_result_set pg cur else ret tt.

(** The value of the variable [qe] of the main block when its [finally]
    block runs. *)
Definition constructed_qe {D} (pg : psycopg2 D) (d : D) : option QueryExecutor :=
  match result_of (__init__ pg _SUPABASE_CONN DB_NAME "wine" d) with
  | Ok self => Some self
  | Raise _ => None
  end.

(** What the fatal-error procedure leaves in the trace. *)
Definition fatal_events (e : error) : list event :=
  [Traceback e; Print fatal_text].

(** Events of the cleanup on the way out: a cursor or the connection is
    closed, the confirmation of [close] is printed. *)
Definition is_teardown (e : event) : bool :=
  match e with
  | CursorClose _ | ConnClose _ => true
  | Print s => String.eqb s closed_text
  | _ => false
  end.

(** The error detail of a database error on the error stream. *)
Definition is_db_traceback (e : event) : bool :=
  match e with
  | Traceback (DbError _) => true
  | _ => false
  end.

(** A trace in which no database error was reported. *)
Definition quiet (evs : list event) : Prop :=
  existsb is_db_traceback evs = false.

(** A trace in which the first report of a database error is the output of
    the fatal-error procedure, followed by cleanup only. *)
Definition ends_fatally (evs : list event) : Prop :=
  exists before m after,
    evs = (before ++ Traceback (DbError m) :: Print fatal_text :: after)%list
    /\ quiet before
    /\ forallb is_teardown after = true.

(** A block that reports a database error only through the fatal-error
    procedure, and leaves the process exactly then. *)
Definition orderly {D A} (c : M D A) : Prop :=
  forall d, match result_of (c d) with
            | Raise (SystemExit _) => ends_fatally (events_of (c d))
            | _ => quiet (events_of (c d))
            end.

(** A cleanup block: it does not raise and only tears down. *)
Definition teardown_only {D} (c : M D unit) : Prop :=
  forall d, result_of (c d) = Ok tt
            /\ forallb is_teardown (events_of (c d)) = true.

(** The search-path statement for an already quoted schema name. *)
Definition search_path_statement (ident : string) : string :=
  "SET search_path TO " ++ ident ++ ", public;".

(** ** Vocabulary of the further properties *)

(** A text whose only whitespace is single spaces between its words:
    [after_space] tells that the previous character was a space (or that
    the text starts here), where the next one must not be whitespace. *)
Fixpoint spaced_from (after_space : bool) (s : string) : bool :=
  match s with
  | EmptyString => negb after_space
  | String c s' =>
      if isspace c
      then Ascii.eqb c " "%char && negb after_space && spaced_from true s'
      else spaced_from false s'
  end.

Definition single_spaced (s : string) : bool :=
  match s with
  | EmptyString => true
  | _ => spaced_from true s
  end.

(** The characters of [s] that are not whitespace, in order. *)
Fixpoint visible (s : string) : string :=
  match s with
  | EmptyString => EmptyString
  | String c s' => if isspace c then visible s' else String c (visible s')
  end.

(** The text the message is made from: the query, cut with an ellipsis
    when it is longer than 55 characters. *)
Definition cut (query : string) : string :=
  if (55 <? String.length query)%nat then slice_to 55 query ++ "..." else query.

(** The cursors closed in a trace, in order. *)
Fixpoint cursor_closes (evs : list event) : list pg_cursor :=
  match evs with
  | [] => []
  | CursorClose cur :: rest => cur :: cursor_closes rest
  | _ :: rest => cursor_closes rest
  end.

(** The connections closed in a trace, in order. *)
Fixpoint conn_closes (evs : list event) : list pg_connection :=
  match evs with
  | [] => []
  | ConnClose c :: rest => c :: conn_closes rest
  | _ :: rest => conn_closes rest
  end.

Definition is_cursor_close (e : event) : bool :=
  match e with CursorClose _ => true | _ => false end.

(** A trace without its cursor-close events. *)
Definition without_cursor_closes (evs : list event) : list event :=
  filter (fun e => negb (is_cursor_close e)) evs.

(** No statement is executed and nothing is fetched once a cursor has been
    closed; [closed] tells that one was. *)
Fixpoint no_use_after_close (closed : bool) (evs : list event) : bool :=
  match evs with
  | [] => true
  | CursorClose _ :: rest => no_use_after_close true rest
  | Execute _ _ :: rest => negb closed && no_use_after_close closed rest
  | Fetchall _ :: rest => negb closed && no_use_after_close closed rest
  | _ :: rest => no_use_after_close closed rest
  end.

(** Events by which a block would open or close a connection. *)
Definition is_connection_event (e : event) : bool :=
  match e with
  | Connect _ | ConnClose _ => true
  | _ => false
  end.

(** A block none of whose events satisfies [p]. *)
Definition avoids {D A} (p : event -> bool) (c : M D A) : Prop :=
  forall d, existsb p (events_of (c d)) = false.

(** How a call of the executor can end, with what it leaves in the trace:
    normally or with an exception that is not a database error, and then
    no database error was reported; or with [SystemExit] and code 0, after
    the output of the fatal-error procedure; never with a database error. *)
Definition classified {A} (r : outcome A) (evs : list event) : Prop :=
  match r with
  | Ok _ => quiet evs
  | Raise (Exc (OtherError _)) => quiet evs
  | Raise (Exc (DbError _)) => False
  | Raise (SystemExit code) => code = 0%Z /\ ends_fatally evs
  end.

(** The queries of the driver, in the order of the script. *)
Definition nine_queries : list string :=
  [query_7_9E; query_7_11E; query_7_12E; query_7_13E; query_7_14E;
   query_7_15E; query_7_16E; query_7_17E; query_7_18E].

(** A block that sends the statements [qs] in this order and stops at the
    first call that does not return. *)
Definition sends_in_order {D A} (c : M D A) (qs : list string) : Prop :=
  forall d,
    (exists n, statements (events_of (c d)) = firstn n qs)
    /\ (forall a, result_of (c d) = Ok a -> statements (events_of (c d)) = qs).

(** The message of the exception raised by an attribute access on [None]. *)
Definition no_cursor_attribute : string :=
  "'NoneType' object has no attribute 'cursor'".

(** A stricter scripted database: a cursor cannot be opened any more once
    the connection was closed. *)
Definition strict_driver : psycopg2 Scripted.session := {|
  pg_connect := pg_connect Scripted.driver;
  pg_set_autocommit := pg_set_autocommit Scripted.driver;
  pg_open_cursor := fun c s =>
    match Scripted.closes s with
    | O => pg_open_cursor Scripted.driver c s
    | S _ => (inl (DbError "connection already closed"), s)
    end;
  pg_quote_ident := pg_quote_ident Scripted.driver;
  pg_execute := pg_execute Scripted.driver;
  pg_description := pg_description Scripted.driver;
  pg_fetchall := pg_fetchall Scripted.driver;
  pg_close_cursor := pg_close_cursor Scripted.driver;
  pg_close := pg_close Scripted.driver
|}.

(** The scripted database after its connection was closed. *)
Definition closed_session : Scripted.session :=
  pg_close Scripted.driver 1%nat (Scripted.start []).

(** An executor that was never connected. *)
Definition unconnected_qe : QueryExecutor :=
  {| _schema_name := "wine"; _dbname := "postgres"; connection := None |}.

(** ** Vocabulary for what follows the fatal-error procedure *)

(** After the fatal-error procedure, the call itself does at most one
    thing: it releases its cursor. *)
Definition released_only (evs : list event) : Prop :=
  evs = [] \/ exists cur, evs = [CursorClose cur].

(** A trace whose first report of a database error is the output of the
    fatal-error procedure, with nothing after it. *)
Definition fatal_last (evs : list event) : Prop :=
  exists before m,
    evs = (before ++ fatal_events (DbError m))%list /\ quiet before.

(** The same, with the release of the cursor allowed after it. *)
Definition fatal_then_release (evs : list event) : Prop :=
  exists before m released,
    evs = (before ++ fatal_events (DbError m) ++ released)%list
    /\ quiet before /\ released_only released.

(** A block that exits right after the fatal-error procedure, and reports
    no database error otherwise. *)
Definition abrupt {D A} (c : M D A) : Prop :=
  forall d, match result_of (c d) with
            | Raise (SystemExit _) => fatal_last (events_of (c d))
            | _ => quiet (events_of (c d))
            end.

(** A block that exits after the fatal-error procedure and, at most, the
    release of its cursor. *)
Definition strict {D A} (c : M D A) : Prop :=
  forall d, match result_of (c d) with
            | Raise (SystemExit _) => fatal_then_release (events_of (c d))
            | _ => quiet (events_of (c d))
            end.

(** Scripted databases on which one call of the construction is refused:
    the switch to autocommit, or the quoting of the schema name. *)
Definition no_autocommit_driver : psycopg2 Scripted.session := {|
  pg_connect := pg_connect Scripted.driver;
  pg_set_autocommit := fun _ _ s => (inl (DbError "autocommit refused"), s);
  pg_open_cursor := pg_open_cursor Scripted.driver;
  pg_quote_ident := pg_quote_ident Scripted.driver;
  pg_execute := pg_execute Scripted.driver;
  pg_description := pg_description Scripted.driver;
  pg_fetchall := pg_fetchall Scripted.driver;
  pg_close_cursor := pg_close_cursor Scripted.driver;
  pg_close := pg_close Scripted.driver
|}.

Definition no_quote_driver : psycopg2 Scripted.session := {|
  pg_connect := pg_connect Scripted.driver;
  pg_set_autocommit := pg_set_autocommit Scripted.driver;
  pg_open_cursor := pg_open_cursor Scripted.driver;
  pg_quote_ident := fun _ _ _ => inl (DbError "invalid byte sequence");
  pg_execute := pg_execute Scripted.driver;
  pg_description := pg_description Scripted.driver;
  pg_fetchall := pg_fetchall Scripted.driver;
  pg_close_cursor := pg_close_cursor Scripted.driver;
  pg_close := pg_close Scripted.driver
|}.

(** * Properties *)

(** ** Strings *)

Section StringFacts.

Lemma append_empty_r (s : string) : s ++ EmptyString = s.
Proof. induction s as [|c s IH]; simpl; [reflexivity | now rewrite IH]. Qed.

Lemma append_assoc (s t u : string) : (s ++ t) ++ u = s ++ (t ++ u).
Proof. induction s as [|c s IH]; simpl; [reflexivity | now rewrite IH]. Qed.

Lemma forallb_str_app (p : ascii -> bool) (s t : string) :
  forallb_str p (s ++ t) = forallb_str p s && forallb_str p t.
Proof.
  induction s as [|c s IH]; simpl; [reflexivity|].
  rewrite IH. now rewrite andb_assoc.
Qed.

Lemma forallb_str_weaken (p q : ascii -> bool) (s : string) :
  (forall c, p c = true -> q c = true) ->
  forallb_str p s = true -> forallb_str q s = true.
Proof.
  intros Hpq. induction s as [|c s IH]; simpl; [reflexivity|].
  intros H. apply andb_true_iff in H as [Hc Hs].
  apply andb_true_iff. split; auto.
Qed.

Lemma forallb_str_lstrip (p : ascii -> bool) (s : string) :
  forallb_str p s = true -> forallb_str p (lstrip s) = true.
Proof.
  induction s as [|c s IH]; simpl; [reflexivity|].
  intros H. destruct (isspace c).
  - apply IH. now apply andb_true_iff in H.
  - exact H.
Qed.

Lemma forallb_str_rstrip (p : ascii -> bool) (s : string) :
  forallb_str p s = true -> forallb_str p (rstrip s) = true.
Proof.
  induction s as [|c s IH]; simpl; [reflexivity|].
  intros H. apply andb_true_iff in H as [Hc Hs]. specialize (IH Hs).
  destruct (rstrip s) as [|c' r].
  - destruct (isspace c); simpl; [reflexivity | now rewrite Hc].
  - change (forallb_str p (String c (String c' r))) with (p c && forallb_str p (String c' r)).
    now rewrite Hc, IH.
Qed.

Lemma sub_ws_from_tidy (b : bool) (s : string) :
  forallb_str tidy (sub_ws_from b s) = true.
Proof.
  revert b. induction s as [|c s IH]; intros b; simpl; [reflexivity|].
  destruct (isspace c) eqn:Hc.
  - destruct b; simpl; auto.
  - simpl. unfold tidy at 1. rewrite Hc. simpl. apply IH.
Qed.

Lemma tidy_not_newline (c : ascii) :
  tidy c = true -> negb (Ascii.eqb c (ascii_of_nat 10)) = true.
Proof.
  intros H. destruct (Ascii.eqb c (ascii_of_nat 10)) eqn:E; [|reflexivity].
  apply Ascii.eqb_eq in E. subst c. discriminate H.
Qed.

(** Newlines are whitespace: replacing them first changes nothing for
    [re.sub]. *)
Lemma sub_ws_from_replace_newline (b : bool) (s : string) :
  sub_ws_from b (replace_char (ascii_of_nat 10) " "%char s) = sub_ws_from b s.
Proof.
  revert b. induction s as [|c s IH]; intros b; simpl; [reflexivity|].
  destruct (Ascii.eqb c (ascii_of_nat 10)) eqn:E.
  - apply Ascii.eqb_eq in E. subst c.
    change (isspace " ") with true. change (isspace (ascii_of_nat 10)) with true.
    destruct b; now rewrite IH.
  - destruct (isspace c); [destruct b|]; now rewrite IH.
Qed.

(** A character that is not whitespace ends the run in front of it. *)
Lemma sub_ws_from_app (b : bool) (s : string) (c : ascii) (t : string) :
  isspace c = false ->
  sub_ws_from b (s ++ String c t) = sub_ws_from b s ++ String c (sub_ws_from false t).
Proof.
  intros Hc. revert b. induction s as [|a s IH]; intros b; simpl.
  - now rewrite Hc.
  - destruct (isspace a); [destruct b|]; simpl; now rewrite IH.
Qed.

Lemma lstrip_app (s : string) (c : ascii) (t : string) :
  isspace c = false ->
  lstrip (s ++ String c t) = lstrip s ++ String c t.
Proof.
  intros Hc. induction s as [|a s IH]; simpl.
  - now rewrite Hc.
  - destruct (isspace a); [exact IH | reflexivity].
Qed.

Lemma rstrip_app (s t : string) :
  t <> EmptyString -> rstrip t = t -> rstrip (s ++ t) = s ++ t.
Proof.
  intros Hne Ht. induction s as [|a s IH]; simpl; [exact Ht|].
  rewrite IH. destruct (s ++ t) eqn:E; [|reflexivity].
  destruct s; simpl in E; [contradiction | discriminate].
Qed.

Lemma length_lstrip (s : string) : String.length (lstrip s) <= String.length s.
Proof.
  induction s as [|c s IH]; simpl; [lia|].
  destruct (isspace c); simpl; lia.
Qed.

(** Inside a run, the rest of the run is skipped. *)
Lemma sub_ws_from_true (s : string) :
  sub_ws_from true s = sub_ws_from false (lstrip s).
Proof.
  induction s as [|c s IH]; simpl; [reflexivity|].
  destruct (isspace c) eqn:Hc; [exact IH|].
  simpl. now rewrite Hc.
Qed.

Lemma collapse_fuel_enough (fuel : nat) (s : string) :
  String.length s <= fuel -> Spec.collapse_fuel fuel s = re_sub_ws s.
Proof.
  unfold re_sub_ws. revert s.
  induction fuel as [|fuel IH]; intros s Hlen.
  - destruct s; [reflexivity | simpl in Hlen; lia].
  - destruct s as [|c s]; [reflexivity|]. simpl in Hlen. simpl.
    destruct (isspace c).
    + rewrite sub_ws_from_true. rewrite IH; [reflexivity|].
      pose proof (length_lstrip s). lia.
    + rewrite IH; [reflexivity | lia].
Qed.

(** The two ways of collapsing agree. *)
Lemma collapse_whitespace_re_sub (s : string) :
  Spec.collapse_whitespace s = re_sub_ws s.
Proof. apply collapse_fuel_enough. lia. Qed.

Lemma slice_to_all (n : nat) (s : string) :
  String.length s <= n -> slice_to n s = s.
Proof.
  revert s. induction n as [|n IH]; intros [|c s] H; simpl in *;
    try reflexivity; try lia.
  rewrite IH; [reflexivity | lia].
Qed.

Lemma truncated_eq (query : string) :
  Spec.truncated query =
  if (55 <? String.length query)%nat then slice_to 55 query ++ "..." else query.
Proof.
  unfold Spec.truncated.
  destruct (Nat.leb_spec (String.length query) 55);
    destruct (Nat.ltb_spec 55 (String.length query)); try lia; reflexivity.
Qed.

(** The text of a long query: the ellipsis goes through the collapsing
    and shields the end from the trimming. *)
Lemma normalize_with_ellipsis (s : string) :
  strip (re_sub_ws (replace_char (ascii_of_nat 10) " "%char (s ++ "...")))
  = lstrip (re_sub_ws s) ++ "...".
Proof.
  unfold strip, re_sub_ws.
  rewrite sub_ws_from_replace_newline.
  rewrite sub_ws_from_app by reflexivity.
  change (sub_ws_from false "..") with "..".
  rewrite lstrip_app by reflexivity.
  apply rstrip_app; [discriminate | reflexivity].
Qed.

Lemma execution_text_one_line (query : string) :
  one_line (execution_text query) = true.
Proof.
  unfold one_line, execution_text, strip.
  apply forallb_str_weaken with (p := tidy); [exact tidy_not_newline|].
  apply forallb_str_rstrip, forallb_str_lstrip, sub_ws_from_tidy.
Qed.

Lemma execution_message_one_line (query : string) :
  one_line (execution_message query) = true.
Proof.
  unfold execution_message, one_line.
  rewrite !forallb_str_app.
  fold (one_line (execution_text query)). rewrite execution_text_one_line.
  reflexivity.
Qed.

Lemma execution_message_not_fatal (query : string) :
  execution_message query <> fatal_text.
Proof. unfold execution_message, fatal_text. simpl. discriminate. Qed.

Lemma execution_message_not_heading (query : string) :
  execution_message query <> "Result set:".
Proof. unfold execution_message. simpl. discriminate. Qed.

End StringFacts.

(** ** The execution message *)

(** C3, as amended: the message is the quoted text obtained by truncating
    to 55 characters (with an ellipsis when something was cut), replacing
    newlines, collapsing whitespace runs and trimming.  For a query longer
    than 55 characters the text is the collapsed form of the first 55
    characters without its leading whitespace, a run that ends at the cut
    staying as one space, followed by the ellipsis; for a shorter query it
    is the collapsed and trimmed query. *)
Theorem execution_message_shape (query : string) :
  execution_message query = Spec.message query
  /\ (55 < String.length query ->
      execution_text query =
      lstrip (Spec.collapse_whitespace (slice_to 55 query)) ++ "...")
  /\ (String.length query <= 55 ->
      execution_text query = Spec.trim (Spec.collapse_whitespace query)).
Proof.
  split; [|split].
  - unfold execution_message, Spec.message, Spec.normalized, execution_text.
    rewrite truncated_eq, collapse_whitespace_re_sub. reflexivity.
  - intros Hlong. unfold execution_text.
    destruct (Nat.ltb_spec 55 (String.length query)) as [_|Hshort]; [|lia].
    rewrite normalize_with_ellipsis, collapse_whitespace_re_sub. reflexivity.
  - intros Hshort. unfold execution_text, Spec.trim, strip.
    destruct (Nat.ltb_spec 55 (String.length query)) as [Hlong|_]; [lia|].
    unfold re_sub_ws. rewrite sub_ws_from_replace_newline.
    rewrite collapse_whitespace_re_sub. reflexivity.
Qed.

(** The query of exercise 7.16E is longer than 55 characters, and a short
    statement is not. *)
Lemma execution_message_shape_witness :
  (55 < String.length query_7_16E
   /\ execution_text query_7_16E = "SELECT p1.prodnr FROM product ...")
  /\ (String.length "SELECT  1" <= 55
      /\ execution_text "SELECT  1" = "SELECT 1").
Proof.
  split.
  - split; [vm_compute; lia|].
    rewrite (proj1 (proj2 (execution_message_shape query_7_16E)));
      [reflexivity | vm_compute; lia].
  - split; [vm_compute; lia|].
    rewrite (proj2 (proj2 (execution_message_shape "SELECT  1")));
      [reflexivity | vm_compute; lia].
Defined.

(** C3, as stated, fails on the query of exercise 7.16E: what is printed in
    front of the ellipsis is neither the collapsed form of the first 55
    characters (which starts with a space) nor that form trimmed (which
    does not end with a space). *)
Lemma execution_message_7_16E_not_collapsed_prefix :
  55 < String.length query_7_16E
  /\ execution_text query_7_16E = "SELECT p1.prodnr FROM product " ++ "..."
  /\ Spec.collapse_whitespace (slice_to 55 query_7_16E)
     = " SELECT p1.prodnr FROM product "
  /\ Spec.trim (Spec.collapse_whitespace (slice_to 55 query_7_16E))
     = "SELECT p1.prodnr FROM product"
  /\ execution_text query_7_16E
     <> Spec.collapse_whitespace (slice_to 55 query_7_16E) ++ "..."
  /\ execution_text query_7_16E
     <> Spec.trim (Spec.collapse_whitespace (slice_to 55 query_7_16E)) ++ "...".
Proof.
  repeat split; try reflexivity.
  - vm_compute. lia.
  - vm_compute. discriminate.
  - vm_compute. discriminate.
Qed.

(** ** Running the methods *)

Ltac run_block :=
  unfold execute, execute_query, close_twice, close, _initialize, __init__,
    _print_result_set, _print_execution_message, _handle_sql_exception,
    with_cursor, open_cursor, close_cursor, cursor_execute, cursor_fetchall,
    cursor_description, quote_ident, connect, set_autocommit,
    connection_close, try_except_db, try_except_Exception, try_finally,
    attempt, resume, sys_exit, print, print_exc, emit, bind, ret, raise.

Section Runs.

Context {D : Type} (pg : psycopg2 D).

Lemma handle_sql_exception_run (A : Type) (e : error) (d : D) :
  @_handle_sql_exception D A e d
  = (Raise (SystemExit 0), d, [Traceback e; Print fatal_text]).
Proof. reflexivity. Qed.

Lemma print_rows_run (results : list (list pyvalue)) (row_count : nat) (d : D) :
  print_rows results row_count d
  = (Ok (row_count + List.length results), d,
     map (fun row => Print (row_line row)) results).
Proof.
  revert row_count. induction results as [|row rest IH]; intros row_count.
  - simpl. unfold ret. now rewrite Nat.add_0_r.
  - simpl. unfold bind, print, emit. rewrite IH.
    now rewrite Nat.add_succ_r.
Qed.

(** Everything [_print_result_set] can do, by what the cursor answers. *)
Lemma print_result_set_run (cursor : pg_cursor) (d : D) :
  _print_result_set pg cursor d =
  match pg_description pg cursor d with
  | None => (Ok tt, d, [Print "Result set:"; Print "(No results to display)"])
  | Some headers =>
      match pg_fetchall pg cursor d with
      | (inr results, d1) =>
          (Ok tt, d1,
           ([Print "Result set:"; Print (join " | " headers); Fetchall cursor]
            ++ map (fun row => Print (row_line row)) results
            ++ [Print ("Number of rows: " ++ str_nat (List.length results))])%list)
      | (inl (DbError m), d1) =>
          (Raise (SystemExit 0), d1,
           [Print "Result set:"; Print (join " | " headers); Fetchall cursor;
            Traceback (DbError m); Print fatal_text])
      | (inl (OtherError m), d1) =>
          (Raise (Exc (OtherError m)), d1,
           [Print "Result set:"; Print (join " | " headers); Fetchall cursor])
      end
  end.
Proof.
  run_block.
  destruct (pg_description pg cursor d) as [headers|]; [|reflexivity].
  destruct (pg_fetchall pg cursor d) as [[[m|m]|results] d1]; simpl;
    try reflexivity.
  rewrite print_rows_run. reflexivity.
Qed.

Lemma print_result_set_keeps_db_errors (cursor : pg_cursor) :
  keeps_db_errors (_print_result_set pg cursor).
Proof.
  intros d m. rewrite print_result_set_run.
  destruct (pg_description pg cursor d); [|discriminate].
  destruct (pg_fetchall pg cursor d) as [[[?|?]|?] ?]; discriminate.
Qed.

(** Everything [execute] can do once its cursor is open. *)
Lemma execute_run (self : QueryExecutor) (query : string)
    (c : pg_connection) (cur : pg_cursor) (a : error + unit) (d d1 d2 : D) :
  connection self = Some c ->
  pg_open_cursor pg c d = (inr cur, d1) ->
  pg_execute pg cur query d1 = (a, d2) ->
  execute pg self query d =
  match a with
  | inr _ =>
      (Ok tt, pg_close_cursor pg cur d2,
       [CursorOpen c; Execute cur query; CursorClose cur;
        Print (execution_message query)])
  | inl (DbError m) =>
      (Raise (SystemExit 0), pg_close_cursor pg cur d2,
       [CursorOpen c; Execute cur query; CursorClose cur;
        Traceback (DbError m); Print fatal_text])
  | inl (OtherError m) =>
      (Raise (Exc (OtherError m)), pg_close_cursor pg cur d2,
       [CursorOpen c; Execute cur query; CursorClose cur])
  end.
Proof.
  intros Hc Ho He. run_block. rewrite Hc, Ho. simpl. rewrite He.
  destruct a as [[m|m]|[]]; reflexivity.
Qed.

(** Everything [execute_query] can do once its cursor is open. *)
Lemma execute_query_run (self : QueryExecutor) (query : string) (print_results : bool)
    (c : pg_connection) (cur : pg_cursor) (a : error + unit) (d d1 d2 : D) :
  connection self = Some c ->
  pg_open_cursor pg c d = (inr cur, d1) ->
  pg_execute pg cur query d1 = (a, d2) ->
  execute_query pg self query print_results d =
  match a with
  | inr _ =>
      let '(r, d3, evs) := rendering pg print_results cur d2 in
      (r, pg_close_cursor pg cur d3,
       ([CursorOpen c; Execute cur query; Print (execution_message query)]
        ++ evs ++ [CursorClose cur])%list)
  | inl (DbError m) =>
      (Raise (SystemExit 0), pg_close_cursor pg cur d2,
       [CursorOpen c; Execute cur query; CursorClose cur;
        Traceback (DbError m); Print fatal_text])
  | inl (OtherError m) =>
      (Raise (Exc (OtherError m)), pg_close_cursor pg cur d2,
       [CursorOpen c; Execute cur query; CursorClose cur])
  end.
Proof.
  intros Hc Ho He.
  destruct a as [[m|m]|[]].
  - run_block. rewrite Hc, Ho. simpl. rewrite He. reflexivity.
  - run_block. rewrite Hc, Ho. simpl. rewrite He. reflexivity.
  - pose proof (print_result_set_keeps_db_errors cur d2) as Hkeep.
    unfold rendering.
    unfold execute_query, with_cursor, open_cursor, try_except_db, try_finally,
      cursor_execute, _print_execution_message, close_cursor, print, emit, bind.
    rewrite Hc, Ho. unfold lift_answer. cbv beta iota. rewrite He.
    destruct print_results; cbv beta iota.
    + destruct (_print_result_set pg cur d2) as [[r d3] evs].
      unfold result_of in Hkeep. simpl in Hkeep.
      destruct r as [[]|[[m|m]|code]]; simpl; try reflexivity.
      exfalso. exact (Hkeep m eq_refl).
    + unfold ret. reflexivity.
Qed.

End Runs.

(** ** How blocks end *)

Create HintDb exits.

Section Exits.

Context {D : Type}.

Lemma exits_ret (A : Type) (a : A) : exits_with_zero (@ret D A a).
Proof. intros d. exact I. Qed.

Lemma exits_raise_exc (A : Type) (e : error) : exits_with_zero (@raise D A (Exc e)).
Proof. intros d. exact I. Qed.

Lemma exits_sys_exit_0 (A : Type) : exits_with_zero (@sys_exit D A 0).
Proof. intros d. reflexivity. Qed.

Lemma exits_emit (e : event) : exits_with_zero (@emit D e).
Proof. intros d. exact I. Qed.

Lemma exits_bind (A B : Type) (c : M D A) (k : A -> M D B) :
  exits_with_zero c -> (forall a, exits_with_zero (k a)) ->
  exits_with_zero (bind c k).
Proof.
  intros Hc Hk d. specialize (Hc d). unfold bind, result_of in *.
  destruct (c d) as [[[a|x] d1] ev1]; simpl in *.
  - specialize (Hk a d1). unfold result_of in Hk.
    destruct (k a d1) as [[r d2] ev2]. exact Hk.
  - exact Hc.
Qed.

Lemma exits_try_except_db (A : Type) (body : M D A) (handler : error -> M D A) :
  exits_with_zero body -> (forall e, exits_with_zero (handler e)) ->
  exits_with_zero (try_except_db body handler).
Proof.
  intros Hb Hh d. specialize (Hb d). unfold try_except_db, result_of in *.
  destruct (body d) as [[[a|[[m|m]|code]] d1] ev1]; simpl in *; auto.
  specialize (Hh (DbError m) d1). unfold result_of in Hh.
  destruct (handler (DbError m) d1) as [[r d2] ev2]. exact Hh.
Qed.

Lemma exits_try_finally (A : Type) (body : M D A) (cleanup : M D unit) :
  exits_with_zero body -> exits_with_zero cleanup ->
  exits_with_zero (try_finally body cleanup).
Proof.
  intros Hb Hc d. specialize (Hb d). unfold try_finally, result_of in *.
  destruct (body d) as [[r d1] ev1]. specialize (Hc d1). unfold result_of in Hc.
  destruct (cleanup d1) as [[[[]|x] d2] ev2]; simpl in *; assumption.
Qed.

Lemma exits_answer (A : Type) (f : D -> (error + A) * D) (evs : list event) :
  exits_with_zero (fun d => let '(a, d1) := f d in (lift_answer a, d1, evs)).
Proof.
  intros d. unfold result_of. destruct (f d) as [[e|v] d1]; exact I.
Qed.

End Exits.

#[global] Hint Resolve exits_ret exits_raise_exc exits_sys_exit_0 exits_emit
  exits_bind exits_try_except_db exits_try_finally : exits.

Section ExecutorExits.

Context {D : Type} (pg : psycopg2 D).

Lemma exits_handle_sql_exception (A : Type) (e : error) :
  exits_with_zero (@_handle_sql_exception D A e).
Proof. intros d. reflexivity. Qed.

Lemma exits_connect (args : conn_args) : exits_with_zero (connect pg args).
Proof. apply exits_answer. Qed.

Lemma exits_set_autocommit (conn : option pg_connection) (b : bool) :
  exits_with_zero (set_autocommit pg conn b).
Proof. destruct conn; [apply exits_answer | apply exits_raise_exc]. Qed.

Lemma exits_open_cursor (conn : option pg_connection) :
  exits_with_zero (open_cursor pg conn).
Proof. destruct conn; [apply exits_answer | apply exits_raise_exc]. Qed.

Lemma exits_close_cursor (cur : pg_cursor) : exits_with_zero (close_cursor pg cur).
Proof. intros d. exact I. Qed.

Lemma exits_quote_ident (name : string) (conn : option pg_connection) :
  exits_with_zero (quote_ident pg name conn).
Proof.
  destruct conn; [|apply exits_raise_exc].
  intros d. unfold quote_ident, result_of. simpl.
  destruct (pg_quote_ident pg name p d); exact I.
Qed.

Lemma exits_cursor_execute (cur : pg_cursor) (sql : string) :
  exits_with_zero (cursor_execute pg cur sql).
Proof. apply exits_answer. Qed.

Lemma exits_with_cursor (A : Type) (conn : option pg_connection) (body : pg_cursor -> M D A) :
  (forall cur, exits_with_zero (body cur)) ->
  exits_with_zero (with_cursor pg conn body).
Proof.
  intros Hb. unfold with_cursor.
  apply exits_bind; [apply exits_open_cursor|].
  intros cur. apply exits_try_finally; [apply Hb | apply exits_close_cursor].
Qed.

Lemma exits_print_result_set (cur : pg_cursor) :
  exits_with_zero (_print_result_set pg cur).
Proof.
  intros d. rewrite print_result_set_run. unfold result_of.
  destruct (pg_description pg cur d); [|exact I].
  destruct (pg_fetchall pg cur d) as [[[m|m]|rows] d1]; simpl; auto.
Qed.

Lemma exits_initialize (supabase_conn : option string) (self : QueryExecutor) :
  exits_with_zero (_initialize pg supabase_conn self).
Proof.
  unfold _initialize.
  apply exits_bind.
  - apply exits_try_except_db; [|intros e; apply exits_handle_sql_exception].
    apply exits_bind.
    + destruct supabase_conn; apply exits_connect.
    + intros conn. apply exits_bind; [apply exits_set_autocommit|].
      intros _. apply exits_ret.
  - intros self'. apply exits_bind; [apply exits_emit|]. intros _.
    apply exits_bind.
    + apply exits_try_except_db; [|intros e; apply exits_handle_sql_exception].
      apply exits_with_cursor. intros cur.
      apply exits_bind; [apply exits_quote_ident|].
      intros ident. apply exits_cursor_execute.
    + intros _. apply exits_bind; [apply exits_emit|]. intros _. apply exits_ret.
Qed.

Lemma exits_execute (self : QueryExecutor) (query : string) :
  exits_with_zero (execute pg self query).
Proof.
  unfold execute. apply exits_bind.
  - apply exits_try_except_db; [|intros e; apply exits_handle_sql_exception].
    apply exits_with_cursor. intros cur. apply exits_cursor_execute.
  - intros _. apply exits_emit.
Qed.

Lemma exits_execute_query (self : QueryExecutor) (query : string) (print_results : bool) :
  exits_with_zero (execute_query pg self query print_results).
Proof.
  unfold execute_query.
  apply exits_try_except_db; [|intros e; apply exits_handle_sql_exception].
  apply exits_with_cursor. intros cur.
  apply exits_bind; [apply exits_cursor_execute|]. intros _.
  apply exits_bind; [apply exits_emit|]. intros _.
  destruct print_results; [apply exits_print_result_set | apply exits_ret].
Qed.

Lemma exits_banner (title : string) : exits_with_zero (@banner D title).
Proof. unfold banner, print. auto with exits. Qed.

Lemma exits_exercises (qe : QueryExecutor) : exits_with_zero (exercises pg qe).
Proof.
  unfold exercises.
  repeat (apply exits_bind; [first [apply exits_banner | apply exits_execute_query]|];
          intros _).
  apply exits_execute_query.
Qed.

Lemma exits_try_block : exits_with_zero (try_block pg).
Proof.
  unfold try_block, __init__.
  apply exits_bind; [apply exits_initialize | apply exits_exercises].
Qed.

(** [close] never raises. *)
Lemma close_run (self : QueryExecutor) (d : D) :
  close pg self d =
  match connection self with
  | None => (Ok tt, d, [])
  | Some c => (Ok tt, pg_close pg c d, [ConnClose c; Print closed_text])
  end.
Proof. unfold close. destruct (connection self); reflexivity. Qed.

(** The main block is the [try] block under its handler and its [finally]
    block. *)
Lemma main_eq (d : D) :
  main pg d =
  try_finally (try_except_Exception (try_block pg) unexpected)
              (cleanup pg (constructed_qe pg d)) d.
Proof.
  unfold main, try_block, constructed_qe, result_of.
  unfold attempt, resume, try_finally, try_except_Exception, bind.
  destruct (__init__ pg _SUPABASE_CONN DB_NAME "wine" d) as [[[self|x] d1] ev1];
    cbn [fst snd].
  - unfold ret. cbv beta iota.
    destruct (exercises pg self d1) as [[[[]|[e|code]] d2] ev2]; cbv beta iota.
    + destruct (cleanup pg (Some self) d2) as [[rc d3] ev3].
      simpl. now rewrite app_assoc.
    + destruct (unexpected e d2) as [[rh d3] ev3].
      destruct (cleanup pg (Some self) d3) as [[rc d4] ev4].
      simpl. now rewrite !app_assoc.
    + destruct (cleanup pg (Some self) d2) as [[rc d3] ev3].
      simpl. now rewrite app_assoc.
  - unfold raise. cbv beta iota.
    destruct x as [e|code]; cbv beta iota.
    + destruct (unexpected e d1) as [[rh d3] ev3].
      destruct (cleanup pg None d3) as [[rc d4] ev4].
      simpl. now rewrite !app_assoc.
    + destruct (cleanup pg None d1) as [[rc d3] ev3]. reflexivity.
Qed.

Lemma cleanup_ok (qe : option QueryExecutor) (d : D) :
  result_of (cleanup pg qe d) = Ok tt.
Proof.
  destruct qe as [self|]; [|reflexivity].
  simpl. rewrite close_run. destruct (connection self); reflexivity.
Qed.

(** The process always ends with status 0. *)
Lemma main_lets_nothing_out : lets_nothing_out (main pg).
Proof.
  intros d. rewrite main_eq.
  pose proof (exits_try_block d) as Hb.
  unfold try_finally, try_except_Exception, result_of in *.
  destruct (try_block pg d) as [[[[]|[e|code]] d1] ev1]; simpl in Hb.
  - pose proof (cleanup_ok (constructed_qe pg d) d1) as Hc.
    unfold result_of in Hc.
    destruct (cleanup pg (constructed_qe pg d) d1) as [[rc d2] ev2].
    simpl in Hc. subst rc. exact I.
  - unfold unexpected, bind, print, print_exc, emit. cbv beta iota.
    pose proof (cleanup_ok (constructed_qe pg d) d1) as Hc.
    unfold result_of in Hc.
    destruct (cleanup pg (constructed_qe pg d) d1) as [[rc d2] ev2].
    simpl in Hc. subst rc. exact I.
  - pose proof (cleanup_ok (constructed_qe pg d) d1) as Hc.
    unfold result_of in Hc.
    destruct (cleanup pg (constructed_qe pg d) d1) as [[rc d2] ev2].
    simpl in Hc. subst rc. exact Hb.
Qed.

End ExecutorExits.

(** ** close *)

Section CloseFacts.

Context {D : Type} (pg : psycopg2 D).

(** C1, as amended: [close] never raises; on an instance whose connection
    was never opened it does nothing, and on an instance that holds a
    connection object it closes it and prints the confirmation at every
    call, so that two calls print it twice. *)
Theorem close_effect (self : QueryExecutor) (d : D) :
  result_of (close pg self d) = Ok tt
  /\ result_of (close_twice pg self d) = Ok tt
  /\ match connection self with
     | None =>
         events_of (close pg self d) = []
         /\ events_of (close_twice pg self d) = []
     | Some c =>
         events_of (close pg self d) = [ConnClose c; Print closed_text]
         /\ events_of (close_twice pg self d)
            = [ConnClose c; Print closed_text; ConnClose c; Print closed_text]
         /\ times_printed closed_text (events_of (close_twice pg self d)) = 2
     end.
Proof.
  run_block. destruct (connection self) as [c|]; simpl.
  - repeat split; reflexivity.
  - repeat split; reflexivity.
Qed.

End CloseFacts.

(** C1, as stated, fails: an executor is constructed and closed twice; no
    call raises and the confirmation is printed twice. *)
Lemma close_twice_prints_twice :
  result_of constructed_then_closed_twice = Ok tt
  /\ prints (events_of constructed_then_closed_twice)
     = ["Successfully connected to Postgres."; "Using schema 'wine'." ++ nl;
        "Database connection closed."; "Database connection closed."]
  /\ times_printed "Database connection closed."
       (events_of constructed_then_closed_twice) = 2
  /\ ~ times_printed "Database connection closed."
         (events_of constructed_then_closed_twice) <= 1.
Proof.
  assert (H : times_printed "Database connection closed."
                (events_of constructed_then_closed_twice) = 2)
    by (vm_compute; reflexivity).
  repeat split; try reflexivity; try exact H.
  rewrite H. lia.
Qed.

(** ** Construction *)

(** Take the next answer of the driver that the goal waits for. *)
Ltac answer :=
  match goal with
  | |- context [pg_connect ?pg ?a ?d] =>
      destruct (pg_connect pg a d) as [[[?m|?m]|?c] ?d]
  | |- context [pg_set_autocommit ?pg ?c ?b ?d] =>
      destruct (pg_set_autocommit pg c b d) as [[[?m|?m]|[]] ?d]
  | |- context [pg_open_cursor ?pg ?c ?d] =>
      destruct (pg_open_cursor pg c d) as [[[?m|?m]|?cur] ?d]
  | |- context [pg_quote_ident ?pg ?n ?c ?d] =>
      destruct (pg_quote_ident pg n c d) as [[?m|?m]|?ident]
  | |- context [pg_execute ?pg ?c ?q ?d] =>
      destruct (pg_execute pg c q d) as [[[?m|?m]|[]] ?d]
  end; simpl.

Section Construction.

Context {D : Type} (pg : psycopg2 D).

Lemma connect_arguments_run (supabase_conn : option string) (dbname : string) (d : D) :
  match supabase_conn with
  | None => connect pg (ConnKeywords dbname PG_USER PG_PASSWORD PG_HOST PG_PORT_NUMBER "UTF8")
  | Some dsn => connect pg (ConnString dsn "UTF8")
  end d
  = let '(a, d1) := pg_connect pg (connect_arguments supabase_conn dbname) d in
    (lift_answer a, d1, [Connect (connect_arguments supabase_conn dbname)]).
Proof. destruct supabase_conn; reflexivity. Qed.

(** The construction when the connection cannot be opened. *)
Lemma init_connect_fails (supabase_conn : option string) (dbname schema_name m : string)
    (d d1 : D) :
  pg_connect pg (connect_arguments supabase_conn dbname) d = (inl (DbError m), d1) ->
  __init__ pg supabase_conn dbname schema_name d
  = (Raise (SystemExit 0), d1,
     Connect (connect_arguments supabase_conn dbname) :: fatal_events (DbError m)).
Proof.
  intros Hconn. unfold __init__, _initialize.
  unfold bind at 1. unfold try_except_db at 1. unfold bind at 1.
  cbn [_dbname]. rewrite connect_arguments_run, Hconn. reflexivity.
Qed.

(** The construction up to the search-path statement, by the answer to
    that statement. *)
Lemma init_run (supabase_conn : option string) (dbname schema_name ident : string)
    (c : pg_connection) (cur : pg_cursor) (a : error + unit) (d d1 d2 d3 d4 : D) :
  pg_connect pg (connect_arguments supabase_conn dbname) d = (inr c, d1) ->
  pg_set_autocommit pg c true d1 = (inr tt, d2) ->
  pg_open_cursor pg c d2 = (inr cur, d3) ->
  pg_quote_ident pg schema_name c d3 = inr ident ->
  pg_execute pg cur (search_path_statement ident) d3 = (a, d4) ->
  __init__ pg supabase_conn dbname schema_name d =
  let setup :=
    [Connect (connect_arguments supabase_conn dbname); SetAutocommit c true;
     Print "Successfully connected to Postgres."; CursorOpen c;
     Execute cur (search_path_statement ident); CursorClose cur] in
  match a with
  | inr _ =>
      (Ok {| _schema_name := schema_name; _dbname := dbname; connection := Some c |},
       pg_close_cursor pg cur d4,
       (setup ++ [Print ("Using schema '" ++ schema_name ++ "'." ++ nl)])%list)
  | inl (DbError m) =>
      (Raise (SystemExit 0), pg_close_cursor pg cur d4,
       (setup ++ fatal_events (DbError m))%list)
  | inl (OtherError m) =>
      (Raise (Exc (OtherError m)), pg_close_cursor pg cur d4, setup)
  end.
Proof.
  intros Hconn Hauto Hcur Hquote Hexec. unfold __init__, _initialize.
  unfold bind at 1. unfold try_except_db at 1. unfold bind at 1.
  cbn [_dbname]. rewrite connect_arguments_run, Hconn.
  run_block. simpl. rewrite Hauto. simpl. rewrite Hcur. simpl.
  rewrite Hquote. simpl. unfold search_path_statement in *. simpl in Hexec.
  rewrite Hexec.
  destruct a as [[m|m]|[]]; reflexivity.
Qed.

(** Whatever the driver answers, the construction calls [connect] first
    and once, with the arguments chosen from the class attribute. *)
Lemma init_connects (supabase_conn : option string) (dbname schema_name : string) (d : D) :
  exists rest,
    events_of (__init__ pg supabase_conn dbname schema_name d)
    = Connect (connect_arguments supabase_conn dbname) :: rest
    /\ connects rest = [].
Proof.
  unfold __init__, _initialize.
  unfold bind at 1. unfold try_except_db at 1. unfold bind at 1.
  cbn [_dbname]. rewrite connect_arguments_run.
  run_block. simpl.
  answer; [eexists; split; reflexivity ..|].
  answer; [eexists; split; reflexivity ..|].
  answer; [eexists; split; reflexivity ..|].
  answer; [eexists; split; reflexivity ..|].
  answer; eexists; split; reflexivity.
Qed.

(** Whatever the driver answers, at most one statement is sent. *)
Lemma init_statements (supabase_conn : option string) (dbname schema_name : string) (d : D) :
  List.length (statements (events_of (__init__ pg supabase_conn dbname schema_name d))) <= 1.
Proof.
  unfold __init__, _initialize.
  unfold bind at 1. unfold try_except_db at 1. unfold bind at 1.
  cbn [_dbname]. rewrite connect_arguments_run.
  run_block. simpl.
  answer; [simpl; lia ..|].
  answer; [simpl; lia ..|].
  answer; [simpl; lia ..|].
  answer; [simpl; lia ..|].
  answer; simpl; lia.
Qed.

(** An executor that was constructed holds a connection. *)
Lemma init_ok_connected (supabase_conn : option string) (dbname schema_name : string)
    (d : D) (self : QueryExecutor) :
  result_of (__init__ pg supabase_conn dbname schema_name d) = Ok self ->
  exists c, connection self = Some c.
Proof.
  unfold __init__, _initialize.
  unfold bind at 1. unfold try_except_db at 1. unfold bind at 1.
  cbn [_dbname]. rewrite connect_arguments_run.
  run_block. unfold result_of. simpl.
  answer; [discriminate ..|].
  answer; [discriminate ..|].
  answer; [discriminate ..|].
  answer; [discriminate ..|].
  answer; try discriminate.
  intros H. injection H as <-. eexists. reflexivity.
Qed.

End Construction.

(** ** execute, execute_query and the result table *)

Lemma prints_app (evs evs' : list event) :
  prints (evs ++ evs') = (prints evs ++ prints evs')%list.
Proof.
  induction evs as [|e evs IH]; [reflexivity|].
  destruct e; simpl; now rewrite ?IH.
Qed.

Lemma prints_map_Print (lines : list string) :
  prints (map Print lines) = lines.
Proof. induction lines as [|l lines IH]; simpl; [reflexivity | now rewrite IH]. Qed.

Section Statements.

Context {D : Type} (pg : psycopg2 D).

(** The table always starts with its heading. *)
Lemma print_result_set_heading (cursor : pg_cursor) (d : D) :
  exists rest,
    events_of (_print_result_set pg cursor d) = Print "Result set:" :: rest.
Proof.
  rewrite print_result_set_run.
  destruct (pg_description pg cursor d); [|eexists; reflexivity].
  destruct (pg_fetchall pg cursor d) as [[[m|m]|results] d1];
    eexists; reflexivity.
Qed.

(** C4: when the statement succeeds, [execute] prints the execution
    message, which is one line, and nothing else; when the statement fails
    with a database error, the message is not printed and only the output
    of the fatal-error procedure appears. *)
Theorem execute_message_only_on_success (self : QueryExecutor) (query : string)
    (c : pg_connection) (cur : pg_cursor) (a : error + unit) (d d1 d2 : D) :
  connection self = Some c ->
  pg_open_cursor pg c d = (inr cur, d1) ->
  pg_execute pg cur query d1 = (a, d2) ->
  match a with
  | inr _ =>
      result_of (execute pg self query d) = Ok tt
      /\ prints (events_of (execute pg self query d)) = [execution_message query]
      /\ one_line (execution_message query) = true
  | inl (DbError m) =>
      execute pg self query d
      = (Raise (SystemExit 0), pg_close_cursor pg cur d2,
         ([CursorOpen c; Execute cur query; CursorClose cur]
          ++ fatal_events (DbError m))%list)
      /\ prints (events_of (execute pg self query d)) = [fatal_text]
      /\ ~ In (execution_message query) (prints (events_of (execute pg self query d)))
  | inl (OtherError m) =>
      prints (events_of (execute pg self query d)) = []
  end.
Proof.
  intros Hc Ho He. rewrite (execute_run pg _ _ _ _ _ _ _ _ Hc Ho He).
  destruct a as [[m|m]|[]].
  - repeat split. simpl. intros [H|[]].
    symmetry in H. exact (execution_message_not_fatal query H).
  - reflexivity.
  - repeat split. apply execution_message_one_line.
Qed.

(** C5: with a result shape, the table is the heading, the column names
    joined by the separator, one line per row in the order of the fetch,
    and the number of those lines; without one, the heading and the note
    that there is nothing to display, and no count. *)
Theorem result_set_rendering (cursor : pg_cursor) (d : D) :
  (pg_description pg cursor d = None ->
   _print_result_set pg cursor d
   = (Ok tt, d, [Print "Result set:"; Print "(No results to display)"]))
  /\ (forall headers results d1,
         pg_description pg cursor d = Some headers ->
         pg_fetchall pg cursor d = (inr results, d1) ->
         result_of (_print_result_set pg cursor d) = Ok tt
         /\ prints (events_of (_print_result_set pg cursor d))
            = ("Result set:" :: join " | " headers
               :: map (fun row => join " | " (map str row)) results
               ++ [("Number of rows: "
                    ++ str_nat (List.length (map (fun row => join " | " (map str row)) results)))%string])%list).
Proof.
  split.
  - intros Hd. rewrite print_result_set_run, Hd. reflexivity.
  - intros headers results d1 Hd Hf.
    rewrite print_result_set_run, Hd, Hf. split; [reflexivity|].
    unfold events_of. cbn [snd]. rewrite length_map.
    change ([Print "Result set:"; Print (join " | " headers); Fetchall cursor]
            ++ map (fun row => Print (row_line row)) results
            ++ [Print ("Number of rows: " ++ str_nat (List.length results))])%list
      with (Print "Result set:" :: Print (join " | " headers) :: Fetchall cursor
            :: (map (fun row => Print (row_line row)) results
                ++ [Print ("Number of rows: " ++ str_nat (List.length results))])%list).
    cbn [prints]. rewrite prints_app.
    rewrite <- (map_map row_line Print), prints_map_Print. reflexivity.
Qed.

(** C6: once the statement has succeeded, [execute_query] prints the
    execution message whatever the flag, and then renders the table if and
    only if the flag is true, which is its default. *)
Theorem execute_query_flag (self : QueryExecutor) (query : string) (print_results : bool)
    (c : pg_connection) (cur : pg_cursor) (d d1 d2 : D) :
  connection self = Some c ->
  pg_open_cursor pg c d = (inr cur, d1) ->
  pg_execute pg cur query d1 = (inr tt, d2) ->
  execute_query pg self query print_results d
  = (let '(r, d3, evs) :=
       (if print_results then _print_result_set pg cur else ret tt) d2 in
     (r, pg_close_cursor pg cur d3,
      ([CursorOpen c; Execute cur query; Print (execution_message query)]
       ++ evs ++ [CursorClose cur])%list))
  /\ (exists rest,
         prints (events_of (execute_query pg self query print_results d))
         = execution_message query :: rest)
  /\ (In "Result set:" (prints (events_of (execute_query pg self query print_results d)))
      <-> print_results = true)
  /\ print_results_default = true.
Proof.
  intros Hc Ho He.
  rewrite (execute_query_run pg _ _ print_results _ _ _ _ _ _ Hc Ho He).
  unfold rendering.
  split; [reflexivity|].
  destruct print_results.
  - destruct (print_result_set_heading cur d2) as [rest Hrest].
    destruct (_print_result_set pg cur d2) as [[r d3] evs].
    unfold events_of in *. cbn [snd] in *. subst evs.
    split; [eexists; reflexivity|].
    split; [|reflexivity].
    split; [reflexivity|]. intros _. simpl. right. left. reflexivity.
  - split; [eexists; reflexivity|].
    split; [|reflexivity].
    split; [|discriminate]. simpl. intros [H|[]].
    exfalso. exact (execution_message_not_heading query H).
Qed.

(** C10, as amended: in [execute_query] the execution message is printed
    exactly when the statement itself succeeded; when fetching the rows
    then fails with a database error, the message, the heading of the
    table and the line of column names are already printed when the
    fatal-error procedure runs, and no row and no count follow. *)
Theorem execute_query_message_before_fetch (self : QueryExecutor) (query : string)
    (print_results : bool) (c : pg_connection) (d : D) :
  connection self = Some c ->
  (forall e d1,
      pg_open_cursor pg c d = (inl e, d1) ->
      ~ In (execution_message query)
           (prints (events_of (execute_query pg self query print_results d))))
  /\ (forall cur a d1 d2,
         pg_open_cursor pg c d = (inr cur, d1) ->
         pg_execute pg cur query d1 = (a, d2) ->
         (In (execution_message query)
             (prints (events_of (execute_query pg self query print_results d)))
          <-> exists u, a = inr u))
  /\ (forall cur headers m d1 d2 d3,
         pg_open_cursor pg c d = (inr cur, d1) ->
         pg_execute pg cur query d1 = (inr tt, d2) ->
         pg_description pg cur d2 = Some headers ->
         pg_fetchall pg cur d2 = (inl (DbError m), d3) ->
         execute_query pg self query true d
         = (Raise (SystemExit 0), pg_close_cursor pg cur d3,
            [CursorOpen c; Execute cur query; Print (execution_message query);
             Print "Result set:"; Print (join " | " headers); Fetchall cur;
             Traceback (DbError m); Print fatal_text; CursorClose cur])).
Proof.
  intros Hc. split; [|split].
  - intros e d1 Ho. run_block. rewrite Hc, Ho.
    destruct e as [m|m]; simpl.
    + intros [H|[]]. symmetry in H. exact (execution_message_not_fatal query H).
    + intros [].
  - intros cur a d1 d2 Ho He.
    rewrite (execute_query_run pg _ _ print_results _ _ _ _ _ _ Hc Ho He).
    destruct a as [[m|m]|[]].
    + split.
      * simpl. intros [H|[]]. symmetry in H.
        exfalso. exact (execution_message_not_fatal query H).
      * intros [u Hu]. discriminate Hu.
    + split.
      * simpl. intros [].
      * intros [u Hu]. discriminate Hu.
    + split; [intros _; exists tt; reflexivity|]. intros _.
      destruct (rendering pg print_results cur d2) as [[r d3] evs].
      simpl. left. reflexivity.
  - intros cur headers m d1 d2 d3 Ho He Hd Hf.
    rewrite (execute_query_run pg _ _ true _ _ _ _ _ _ Hc Ho He).
    unfold rendering. rewrite print_result_set_run, Hd, Hf. reflexivity.
Qed.

End Statements.

(** ** The constructor and the driver *)

Section DriverFacts.

Context {D : Type} (pg : psycopg2 D).

(** The construction never closes the connection. *)
Lemma init_no_close (supabase_conn : option string) (dbname schema_name : string)
    (d : D) (c : pg_connection) :
  ~ In (ConnClose c) (events_of (__init__ pg supabase_conn dbname schema_name d)).
Proof.
  unfold __init__, _initialize.
  unfold bind at 1. unfold try_except_db at 1. unfold bind at 1.
  cbn [_dbname]. rewrite connect_arguments_run.
  run_block. simpl.
  answer; [intuition discriminate ..|].
  answer; [intuition discriminate ..|].
  answer; [intuition discriminate ..|].
  answer; [intuition discriminate ..|].
  answer; intuition discriminate.
Qed.

(** C8: a construction that goes through sends one statement, which sets
    the search path to the quoted schema name followed by public, and its
    last output is the line naming the schema followed by a blank line;
    the schema name defaults to wine. *)
Theorem construction_sets_search_path (supabase_conn : option string)
    (dbname schema_name ident : string) (c : pg_connection) (cur : pg_cursor)
    (d d1 d2 d3 d4 : D) :
  pg_connect pg (connect_arguments supabase_conn dbname) d = (inr c, d1) ->
  pg_set_autocommit pg c true d1 = (inr tt, d2) ->
  pg_open_cursor pg c d2 = (inr cur, d3) ->
  pg_quote_ident pg schema_name c d3 = inr ident ->
  pg_execute pg cur ("SET search_path TO " ++ ident ++ ", public;") d3 = (inr tt, d4) ->
  __init__ pg supabase_conn dbname schema_name d
  = (Ok {| _schema_name := schema_name; _dbname := dbname; connection := Some c |},
     pg_close_cursor pg cur d4,
     [Connect (connect_arguments supabase_conn dbname); SetAutocommit c true;
      Print "Successfully connected to Postgres."; CursorOpen c;
      Execute cur ("SET search_path TO " ++ ident ++ ", public;"); CursorClose cur;
      Print ("Using schema '" ++ schema_name ++ "'." ++ nl)])
  /\ statements (events_of (__init__ pg supabase_conn dbname schema_name d))
     = ["SET search_path TO " ++ ident ++ ", public;"]
  /\ stdout_text [Print ("Using schema '" ++ schema_name ++ "'." ++ nl)]
     = "Using schema '" ++ schema_name ++ "'." ++ nl ++ nl
  /\ schema_name_default = "wine".
Proof.
  intros H1 H2 H3 H4 H5.
  rewrite (init_run pg _ _ _ _ _ _ _ _ _ _ _ _ H1 H2 H3 H4 H5).
  repeat split.
  simpl. rewrite ?append_assoc. simpl. rewrite ?append_empty_r. reflexivity.
Qed.

(** C9: the construction opens the connection once, first of all, with the
    fixed keyword arguments and the database name when the class attribute
    is unset, as it is initially, and with the connection string alone when
    it is set; the client encoding is UTF8 in both cases. *)
Theorem connection_parameters (supabase_conn : option string)
    (dbname schema_name : string) (d : D) :
  _SUPABASE_CONN = None
  /\ (exists rest,
         events_of (__init__ pg supabase_conn dbname schema_name d)
         = Connect match supabase_conn with
                   | None => ConnKeywords dbname "postgres" EmptyString
                                          "localhost" "5432" "UTF8"
                   | Some dsn => ConnString dsn "UTF8"
                   end :: rest
         /\ connects rest = [])
  /\ client_encoding_of (connect_arguments supabase_conn dbname) = "UTF8".
Proof.
  split; [reflexivity|]. split.
  - exact (init_connects pg supabase_conn dbname schema_name d).
  - destruct supabase_conn; reflexivity.
Qed.

(** C7: an exception that comes out of the [try] block is caught, its
    message is printed after the prefix and its detail written on the
    error stream, and the process still ends with status 0; when the
    executor was constructed, the last thing the main block does is to
    close its connection and to print the confirmation, and when it was
    not, no connection is closed. *)
Theorem driver_failure_handling (d : D) :
  (forall e d1 evs,
      try_block pg d = (Raise (Exc e), d1, evs) ->
      main pg d
      = (Ok tt, state_of (cleanup pg (constructed_qe pg d) d1),
         (evs
          ++ [Print ("An unexpected error occurred: " ++ str_error e); Traceback e]
          ++ events_of (cleanup pg (constructed_qe pg d) d1))%list)
      /\ exit_status (result_of (main pg d)) = 0%Z)
  /\ (forall self,
         result_of (__init__ pg _SUPABASE_CONN DB_NAME "wine" d) = Ok self ->
         exists c before,
           connection self = Some c
           /\ events_of (main pg d) = (before ++ [ConnClose c; Print closed_text])%list)
  /\ (forall x,
         result_of (__init__ pg _SUPABASE_CONN DB_NAME "wine" d) = Raise x ->
         forall c, ~ In (ConnClose c) (events_of (main pg d))).
Proof.
  split; [|split].
  - intros e d1 evs Hb. rewrite main_eq.
    unfold try_finally, try_except_Exception. rewrite Hb.
    unfold unexpected, bind, print, print_exc, emit. cbv beta iota.
    pose proof (cleanup_ok pg (constructed_qe pg d) d1) as Hc.
    unfold result_of, state_of, events_of in *.
    destruct (cleanup pg (constructed_qe pg d) d1) as [[rc d2] ev2].
    cbn [fst snd] in *. subst rc. cbn [exit_status].
    split; [|reflexivity]. now rewrite <- !app_assoc.
  - intros self Hinit.
    destruct (init_ok_connected pg _ _ _ _ _ Hinit) as [c Hconn].
    exists c. rewrite main_eq. unfold constructed_qe. rewrite Hinit.
    unfold try_finally, events_of.
    destruct (try_except_Exception (try_block pg) unexpected d) as [[r d1] ev1].
    cbn [cleanup]. rewrite close_run, Hconn. cbn [snd].
    exists ev1. split; reflexivity.
  - intros x Hinit c.
    unfold main, attempt, resume, try_finally, try_except_Exception, bind, events_of.
    pose proof (init_no_close _SUPABASE_CONN DB_NAME "wine" d c) as Hno.
    unfold result_of, events_of in *.
    destruct (__init__ pg _SUPABASE_CONN DB_NAME "wine" d) as [[r d1] ev1].
    cbn [fst snd] in *. subst r.
    destruct x as [e|code]; simpl; rewrite ?app_nil_r.
    + rewrite in_app_iff. simpl. intuition discriminate.
    + exact Hno.
Qed.

End DriverFacts.

(** ** The statements above on the scripted database *)

(** A statement that succeeds, and one that names a table that does not
    exist. *)
Lemma execute_message_only_on_success_witness :
  (result_of (execute Scripted.driver scripted_qe "SET  x = 1" (Scripted.start [])) = Ok tt
   /\ prints (events_of (execute Scripted.driver scripted_qe "SET  x = 1" (Scripted.start [])))
      = ["Executed the query " ++ dquote ++ "SET x = 1" ++ dquote]
   /\ one_line (execution_message "SET  x = 1") = true)
  /\ (result_of (execute Scripted.driver scripted_qe "DROP TABLE nothing"
                   (Scripted.start [Scripted.Fails (DbError "no such table")]))
      = Raise (SystemExit 0)
      /\ prints (events_of (execute Scripted.driver scripted_qe "DROP TABLE nothing"
                   (Scripted.start [Scripted.Fails (DbError "no such table")])))
         = [fatal_text]).
Proof.
  split.
  - exact (execute_message_only_on_success Scripted.driver scripted_qe "SET  x = 1"
             1 1 (inr tt) (Scripted.start []) _ _ eq_refl eq_refl eq_refl).
  - pose proof (execute_message_only_on_success Scripted.driver scripted_qe
                  "DROP TABLE nothing" 1 1 (inl (DbError "no such table"))
                  (Scripted.start [Scripted.Fails (DbError "no such table")])
                  _ _ eq_refl eq_refl eq_refl) as [Hrun [Hprints _]].
    split; [now rewrite Hrun | exact Hprints].
Defined.

(** The columns A and B with the rows (1, x) and (2, y); and a cursor
    without description. *)
Lemma result_set_rendering_witness :
  prints (events_of (_print_result_set Scripted.driver 1 two_rows))
  = ["Result set:"; "A | B"; "1 | x"; "2 | y"; "Number of rows: 2"]
  /\ prints (events_of (_print_result_set Scripted.driver 1 (Scripted.start [])))
     = ["Result set:"; "(No results to display)"].
Proof.
  split.
  - exact (proj2 (proj2 (result_set_rendering Scripted.driver 1 two_rows)
                    ["A"; "B"] [[PyInt 1; PyStr "x"]; [PyInt 2; PyStr "y"]]
                    two_rows eq_refl eq_refl)).
  - rewrite (proj1 (result_set_rendering Scripted.driver 1 (Scripted.start [])) eq_refl).
    reflexivity.
Defined.

(** The same query with and without the table. *)
Lemma execute_query_flag_witness :
  prints (events_of (execute_query Scripted.driver scripted_qe "SELECT 1" true
            (Scripted.start [Scripted.ResultSet ["n"] [[PyInt 1]]])))
  = [execution_message "SELECT 1"; "Result set:"; "n"; "1"; "Number of rows: 1"]
  /\ prints (events_of (execute_query Scripted.driver scripted_qe "SELECT 1" false
               (Scripted.start [Scripted.ResultSet ["n"] [[PyInt 1]]])))
     = [execution_message "SELECT 1"].
Proof.
  split.
  - rewrite (proj1 (execute_query_flag Scripted.driver scripted_qe "SELECT 1" true 1 1
               (Scripted.start [Scripted.ResultSet ["n"] [[PyInt 1]]]) _ _
               eq_refl eq_refl eq_refl)).
    reflexivity.
  - rewrite (proj1 (execute_query_flag Scripted.driver scripted_qe "SELECT 1" false 1 1
               (Scripted.start [Scripted.ResultSet ["n"] [[PyInt 1]]]) _ _
               eq_refl eq_refl eq_refl)).
    reflexivity.
Defined.

(** The connection is lost between the statement and the fetch. *)
Lemma execute_query_message_before_fetch_witness :
  prints (events_of (execute_query Scripted.driver scripted_qe "SELECT 1" true
            (Scripted.start [Scripted.BrokenResultSet ["n"] (DbError "connection lost")])))
  = [execution_message "SELECT 1"; "Result set:"; "n"; fatal_text]
  /\ (In (execution_message "SELECT 1")
         (prints (events_of (execute_query Scripted.driver scripted_qe "SELECT 1" true
            (Scripted.start [Scripted.Fails (DbError "syntax error")]))))
      <-> exists u : unit, @inl error unit (DbError "syntax error") = inr u).
Proof.
  split.
  - rewrite (proj2 (proj2 (execute_query_message_before_fetch Scripted.driver
               scripted_qe "SELECT 1" true 1
               (Scripted.start [Scripted.BrokenResultSet ["n"] (DbError "connection lost")])
               eq_refl))
               1 ["n"] "connection lost" _ _ _ eq_refl eq_refl eq_refl eq_refl).
    reflexivity.
  - exact (proj1 (proj2 (execute_query_message_before_fetch Scripted.driver
               scripted_qe "SELECT 1" true 1
               (Scripted.start [Scripted.Fails (DbError "syntax error")]) eq_refl))
               1 _ _ _ eq_refl eq_refl).
Defined.

(** C10, as stated, fails: when the fetch fails, the output is not the
    message without a table; the heading of the table and the line of
    column names stand between the message and the fatal lines. *)
Lemma fetch_failure_prints_table_head :
  result_of (execute_query Scripted.driver scripted_qe "SELECT 1" true
               (Scripted.start [Scripted.BrokenResultSet ["n"] (DbError "connection lost")]))
  = Raise (SystemExit 0)
  /\ prints (events_of (execute_query Scripted.driver scripted_qe "SELECT 1" true
               (Scripted.start [Scripted.BrokenResultSet ["n"] (DbError "connection lost")])))
     = ["Executed the query " ++ dquote ++ "SELECT 1" ++ dquote;
        "Result set:"; "n"; nl ++ "Exiting due to SQL error."]
  /\ In "Result set:"
        (prints (events_of (execute_query Scripted.driver scripted_qe "SELECT 1" true
               (Scripted.start [Scripted.BrokenResultSet ["n"] (DbError "connection lost")]))))
  /\ prints (events_of (execute_query Scripted.driver scripted_qe "SELECT 1" true
               (Scripted.start [Scripted.BrokenResultSet ["n"] (DbError "connection lost")])))
     <> ["Executed the query " ++ dquote ++ "SELECT 1" ++ dquote;
         nl ++ "Exiting due to SQL error."].
Proof.
  split; [reflexivity|]. split; [reflexivity|]. split.
  - vm_compute. right. left. reflexivity.
  - vm_compute. discriminate.
Qed.

(** The schema inventory: the name is sent between double quotes. *)
Lemma construction_sets_search_path_witness :
  statements (events_of (__init__ Scripted.driver _SUPABASE_CONN "postgres" "inventory"
                           (Scripted.start [])))
  = ["SET search_path TO " ++ dquote ++ "inventory" ++ dquote ++ ", public;"]
  /\ prints (events_of (__init__ Scripted.driver _SUPABASE_CONN "postgres" "inventory"
                          (Scripted.start [])))
     = ["Successfully connected to Postgres."; "Using schema 'inventory'." ++ nl].
Proof.
  split.
  - exact (proj1 (proj2 (construction_sets_search_path Scripted.driver _SUPABASE_CONN
             "postgres" "inventory" _ 1 1 (Scripted.start []) _ _ _ _
             eq_refl eq_refl eq_refl eq_refl eq_refl))).
  - rewrite (proj1 (construction_sets_search_path Scripted.driver _SUPABASE_CONN
             "postgres" "inventory" _ 1 1 (Scripted.start []) _ _ _ _
             eq_refl eq_refl eq_refl eq_refl eq_refl)).
    reflexivity.
Defined.

(** An exception in the first query that is not a database error; a run
    where everything succeeds; a driver that cannot be reached. *)
Lemma driver_failure_handling_witness :
  (result_of (main Scripted.driver (Scripted.start script_unexpected)) = Ok tt
   /\ prints (events_of (main Scripted.driver (Scripted.start script_unexpected)))
      = ["Successfully connected to Postgres."; "Using schema 'wine'." ++ nl;
         slashes; "//////////// Question 7.9E  ////"; slashes;
         "An unexpected error occurred: out of memory";
         "Database connection closed."])
  /\ (exists before,
         events_of (main Scripted.driver (Scripted.start script_two_rows))
         = (before ++ [ConnClose 1; Print closed_text])%list)
  /\ ~ In (ConnClose 1) (events_of (main Scripted.driver (Scripted.start script_no_driver))).
Proof.
  split; [|split].
  - destruct (proj1 (driver_failure_handling Scripted.driver
                       (Scripted.start script_unexpected))
                    (OtherError "out of memory") _ _ eq_refl) as [Hmain _].
    rewrite Hmain. split; reflexivity.
  - destruct (proj1 (proj2 (driver_failure_handling Scripted.driver
                       (Scripted.start script_two_rows)))
                    scripted_qe eq_refl) as [c [before [Hc Hev]]].
    exists before. injection Hc as <-. exact Hev.
  - exact (proj2 (proj2 (driver_failure_handling Scripted.driver
                    (Scripted.start script_no_driver)))
                 (Exc (OtherError "invalid dsn")) eq_refl 1).
Defined.

(** ** What follows a database error *)

Lemma quiet_app (evs evs' : list event) :
  quiet (evs ++ evs') <-> quiet evs /\ quiet evs'.
Proof. unfold quiet. rewrite existsb_app. apply orb_false_iff. Qed.

Lemma teardown_quiet (evs : list event) :
  forallb is_teardown evs = true -> quiet evs.
Proof.
  unfold quiet. induction evs as [|e evs IH]; simpl; [reflexivity|].
  intros H. apply andb_true_iff in H as [He Hevs]. rewrite (IH Hevs).
  destruct e as [s|[m|m]| | | | | | |]; try discriminate He; reflexivity.
Qed.

Lemma quiet_map_Print (lines : list string) : quiet (map Print lines).
Proof. unfold quiet. induction lines; simpl; auto. Qed.

Lemma ends_fatally_app_l (evs evs' : list event) :
  quiet evs -> ends_fatally evs' -> ends_fatally (evs ++ evs').
Proof.
  intros Hq (before & m & after & -> & Hb & Ha).
  exists (evs ++ before)%list, m, after. split; [now rewrite app_assoc|].
  split; [now apply quiet_app | exact Ha].
Qed.

Lemma ends_fatally_app_r (evs evs' : list event) :
  ends_fatally evs -> forallb is_teardown evs' = true -> ends_fatally (evs ++ evs').
Proof.
  intros (before & m & after & -> & Hb & Ha) Ht.
  exists before, m, (after ++ evs')%list. split; [now rewrite <- app_assoc|].
  split; [exact Hb|]. rewrite forallb_app, Ha, Ht. reflexivity.
Qed.

Section Orderly.

Context {D : Type}.

Lemma orderly_ret (A : Type) (a : A) : orderly (@ret D A a).
Proof. intros d. reflexivity. Qed.

Lemma orderly_raise_exc (A : Type) (e : error) : orderly (@raise D A (Exc e)).
Proof. intros d. reflexivity. Qed.

Lemma orderly_print (text : string) : orderly (@print D text).
Proof. intros d. reflexivity. Qed.

Lemma orderly_answer (A : Type) (f : D -> (error + A) * D) (ev : event) :
  is_db_traceback ev = false ->
  orderly (fun d => let '(a, d1) := f d in (lift_answer a, d1, [ev])).
Proof.
  intros Hev d. unfold result_of, events_of, quiet.
  destruct (f d) as [[e|v] d1]; simpl; now rewrite Hev.
Qed.

Lemma orderly_bind (A B : Type) (c : M D A) (k : A -> M D B) :
  orderly c -> (forall a, orderly (k a)) -> orderly (bind c k).
Proof.
  intros Hc Hk d. specialize (Hc d). unfold bind, result_of, events_of in *.
  destruct (c d) as [[[a|x] d1] ev1]; cbn [fst snd] in *; [|exact Hc].
  specialize (Hk a d1). unfold result_of, events_of in Hk.
  destruct (k a d1) as [[r d2] ev2]; cbn [fst snd] in *.
  destruct r as [b|[e|code]].
  - now apply quiet_app.
  - now apply quiet_app.
  - now apply ends_fatally_app_l.
Qed.

(** A block under [except psycopg2.Error] with the fatal-error procedure
    as its handler. *)
Lemma orderly_guard (A : Type) (body : M D A) :
  orderly body ->
  orderly (try_except_db body (fun e => _handle_sql_exception e)).
Proof.
  intros Hb d. specialize (Hb d). unfold try_except_db, result_of, events_of in *.
  destruct (body d) as [[[a|[[m|m]|code]] d1] ev1]; cbn [fst snd] in *;
    try exact Hb.
  exists ev1, m, []. repeat split. exact Hb.
Qed.

Lemma keeps_guard (A : Type) (body : M D A) :
  keeps_db_errors (try_except_db body (fun e => _handle_sql_exception e)).
Proof.
  intros d m. unfold try_except_db, result_of.
  destruct (body d) as [[[a|[[m'|m']|code]] d1] ev1]; discriminate.
Qed.

Lemma keeps_bind (A B : Type) (c : M D A) (k : A -> M D B) :
  keeps_db_errors c -> (forall a, keeps_db_errors (k a)) ->
  keeps_db_errors (bind c k).
Proof.
  intros Hc Hk d m. specialize (Hc d m). unfold bind, result_of in *.
  destruct (c d) as [[[a|x] d1] ev1]; cbn [fst] in *.
  - specialize (Hk a d1 m). unfold result_of in Hk.
    destruct (k a d1) as [[r d2] ev2]. exact Hk.
  - intros H. apply Hc. injection H as ->. reflexivity.
Qed.

Lemma keeps_print (text : string) : keeps_db_errors (@print D text).
Proof. intros d m. discriminate. Qed.

Lemma keeps_ret (A : Type) (a : A) : keeps_db_errors (@ret D A a).
Proof. intros d m. discriminate. Qed.

Lemma orderly_try_finally (A : Type) (body : M D A) (cleanup : M D unit) :
  orderly body -> teardown_only cleanup -> orderly (try_finally body cleanup).
Proof.
  intros Hb Hc d. specialize (Hb d). unfold try_finally, result_of, events_of in *.
  destruct (body d) as [[r d1] ev1]; cbn [fst snd] in *.
  destruct (Hc d1) as [Hok Htear]. unfold result_of, events_of in *.
  destruct (cleanup d1) as [[rc d2] ev2]; cbn [fst snd] in *. subst rc.
  destruct r as [a|[e|code]].
  - apply quiet_app. split; [exact Hb | now apply teardown_quiet].
  - apply quiet_app. split; [exact Hb | now apply teardown_quiet].
  - now apply ends_fatally_app_r.
Qed.

(** The handler of the main block, over a block that lets no database
    error out. *)
Lemma orderly_unexpected (body : M D unit) :
  orderly body -> keeps_db_errors body ->
  orderly (try_except_Exception body unexpected).
Proof.
  intros Hb Hk d. specialize (Hb d). specialize (Hk d).
  unfold try_except_Exception, result_of, events_of in *.
  destruct (body d) as [[[a|[[m|m]|code]] d1] ev1]; cbn [fst snd] in *;
    try exact Hb.
  - exfalso. exact (Hk m eq_refl).
  - apply quiet_app. split; [exact Hb | reflexivity].
Qed.

End Orderly.

Section ExecutorOrderly.

Context {D : Type} (pg : psycopg2 D).

Lemma teardown_close_cursor (cur : pg_cursor) : teardown_only (close_cursor pg cur).
Proof. intros d. split; reflexivity. Qed.

Lemma teardown_cleanup (qe : option QueryExecutor) : teardown_only (cleanup pg qe).
Proof.
  intros d. destruct qe as [self|]; [|split; reflexivity].
  simpl. rewrite close_run. destruct (connection self); split; reflexivity.
Qed.

Lemma orderly_with_cursor (A : Type) (conn : option pg_connection) (body : pg_cursor -> M D A) :
  (forall cur, orderly (body cur)) -> orderly (with_cursor pg conn body).
Proof.
  intros Hb. unfold with_cursor. apply orderly_bind.
  - destruct conn; [now apply orderly_answer | apply orderly_raise_exc].
  - intros cur. apply orderly_try_finally; [apply Hb | apply teardown_close_cursor].
Qed.

Lemma orderly_cursor_execute (cur : pg_cursor) (sql : string) :
  orderly (cursor_execute pg cur sql).
Proof. now apply orderly_answer. Qed.

Lemma orderly_print_result_set (cur : pg_cursor) : orderly (_print_result_set pg cur).
Proof.
  unfold _print_result_set.
  apply orderly_bind; [apply orderly_print|]. intros _.
  apply orderly_guard. apply orderly_bind; [intros d; reflexivity|].
  intros [headers|]; [|apply orderly_print].
  apply orderly_bind; [apply orderly_print|]. intros _.
  apply orderly_bind; [now apply orderly_answer|]. intros results.
  apply orderly_bind; [|intros n; apply orderly_print].
  intros d. rewrite print_rows_run. unfold result_of, events_of. cbn [fst snd].
  rewrite <- (map_map row_line Print). apply quiet_map_Print.
Qed.

Lemma orderly_execute_query (self : QueryExecutor) (query : string) (print_results : bool) :
  orderly (execute_query pg self query print_results).
Proof.
  unfold execute_query. apply orderly_guard, orderly_with_cursor. intros cur.
  apply orderly_bind; [apply orderly_cursor_execute|]. intros _.
  apply orderly_bind; [apply orderly_print|]. intros _.
  destruct print_results; [apply orderly_print_result_set | apply orderly_ret].
Qed.

Lemma orderly_execute (self : QueryExecutor) (query : string) :
  orderly (execute pg self query).
Proof.
  unfold execute. apply orderly_bind; [|intros _; apply orderly_print].
  apply orderly_guard, orderly_with_cursor. intros cur. apply orderly_cursor_execute.
Qed.

Lemma orderly_init (supabase_conn : option string) (dbname schema_name : string) :
  orderly (__init__ pg supabase_conn dbname schema_name).
Proof.
  unfold __init__, _initialize. apply orderly_bind.
  - apply orderly_guard. apply orderly_bind.
    + destruct supabase_conn; now apply orderly_answer.
    + intros conn. apply orderly_bind; [|intros _; apply orderly_ret].
      now apply orderly_answer.
  - intros self. apply orderly_bind; [apply orderly_print|]. intros _.
    apply orderly_bind; [|intros _; apply orderly_bind;
                           [apply orderly_print | intros _; apply orderly_ret]].
    apply orderly_guard, orderly_with_cursor. intros cur.
    apply orderly_bind; [|intros ident; apply orderly_cursor_execute].
    destruct (connection self) as [c|]; [|apply orderly_raise_exc].
    intros d. unfold quote_ident, result_of, events_of. cbn [fst snd].
    destruct (pg_quote_ident pg (_schema_name self) c d); reflexivity.
Qed.

Lemma keeps_init (supabase_conn : option string) (dbname schema_name : string) :
  keeps_db_errors (__init__ pg supabase_conn dbname schema_name).
Proof.
  unfold __init__, _initialize.
  apply keeps_bind; [apply keeps_guard|]. intros self.
  apply keeps_bind; [apply keeps_print|]. intros _.
  apply keeps_bind; [apply keeps_guard|]. intros _.
  apply keeps_bind; [apply keeps_print | intros _; apply keeps_ret].
Qed.

Lemma orderly_banner (title : string) : orderly (@banner D title).
Proof.
  unfold banner.
  repeat (apply orderly_bind; [apply orderly_print|]; intros _).
  apply orderly_print.
Qed.

Lemma keeps_banner (title : string) : keeps_db_errors (@banner D title).
Proof.
  unfold banner.
  repeat (apply keeps_bind; [apply keeps_print|]; intros _).
  apply keeps_print.
Qed.

Lemma orderly_exercises (qe : QueryExecutor) : orderly (exercises pg qe).
Proof.
  unfold exercises.
  repeat (apply orderly_bind;
          [first [apply orderly_banner | apply orderly_execute_query]|];
          intros _).
  apply orderly_execute_query.
Qed.

Lemma keeps_exercises (qe : QueryExecutor) : keeps_db_errors (exercises pg qe).
Proof.
  unfold exercises.
  repeat (apply keeps_bind;
          [first [apply keeps_banner | apply keeps_guard]|];
          intros _).
  apply keeps_guard.
Qed.

(** In the main block a database error is reported once, by the
    fatal-error procedure, and only cleanup follows. *)
Lemma orderly_main : orderly (main pg).
Proof.
  intros d. rewrite main_eq.
  apply (orderly_try_finally unit
           (try_except_Exception (try_block pg) unexpected)
           (cleanup pg (constructed_qe pg d))).
  - apply orderly_unexpected; unfold try_block.
    + apply orderly_bind; [apply orderly_init | apply orderly_exercises].
    + apply keeps_bind; [apply keeps_init | apply keeps_exercises].
  - apply teardown_cleanup.
Qed.

End ExecutorOrderly.

(** ** Where the fatal-error procedure leaves a trace *)

Lemma quiet_nil : quiet [].
Proof. reflexivity. Qed.

Lemma fatal_last_release (evs : list event) (cur : pg_cursor) :
  fatal_last evs -> fatal_then_release (evs ++ [CursorClose cur]).
Proof.
  intros (before & m & -> & Hq).
  exists before, m, [CursorClose cur]. split; [now rewrite <- app_assoc|].
  split; [exact Hq|]. right. now exists cur.
Qed.

Lemma fatal_last_app_l (evs evs' : list event) :
  quiet evs -> fatal_last evs' -> fatal_last (evs ++ evs').
Proof.
  intros Hq (before & m & -> & Hb).
  exists (evs ++ before)%list, m. split; [now rewrite app_assoc|].
  now apply quiet_app.
Qed.

Lemma fatal_then_release_app_l (evs evs' : list event) :
  quiet evs -> fatal_then_release evs' -> fatal_then_release (evs ++ evs').
Proof.
  intros Hq (before & m & released & -> & Hb & Hr).
  exists (evs ++ before)%list, m, released. split; [now rewrite app_assoc|].
  split; [now apply quiet_app | exact Hr].
Qed.

Section Strict.

Context {D : Type} (pg : psycopg2 D).

Lemma abrupt_ret (A : Type) (a : A) : abrupt (@ret D A a).
Proof. intros d. reflexivity. Qed.

Lemma abrupt_raise_exc (A : Type) (e : error) : abrupt (@raise D A (Exc e)).
Proof. intros d. reflexivity. Qed.

Lemma abrupt_print (text : string) : abrupt (@print D text).
Proof. intros d. reflexivity. Qed.

Lemma abrupt_answer (A : Type) (f : D -> (error + A) * D) (ev : event) :
  is_db_traceback ev = false ->
  abrupt (fun d => let '(a, d1) := f d in (lift_answer a, d1, [ev])).
Proof.
  intros Hev d. unfold result_of, events_of, quiet.
  destruct (f d) as [[e|v] d1]; simpl; now rewrite Hev.
Qed.

Lemma abrupt_bind (A B : Type) (c : M D A) (k : A -> M D B) :
  abrupt c -> (forall a, abrupt (k a)) -> abrupt (bind c k).
Proof.
  intros Hc Hk d. specialize (Hc d). unfold bind, result_of, events_of in *.
  destruct (c d) as [[[a|x] d1] ev1]; cbn [fst snd] in *; [|exact Hc].
  specialize (Hk a d1). unfold result_of, events_of in Hk.
  destruct (k a d1) as [[r d2] ev2]; cbn [fst snd] in *.
  destruct r as [b|[e|code]].
  - now apply quiet_app.
  - now apply quiet_app.
  - now apply fatal_last_app_l.
Qed.

Lemma abrupt_guard (A : Type) (body : M D A) :
  abrupt body -> abrupt (try_except_db body (fun e => _handle_sql_exception e)).
Proof.
  intros Hb d. specialize (Hb d). unfold try_except_db, result_of, events_of in *.
  destruct (body d) as [[[a|[[m|m]|code]] d1] ev1]; cbn [fst snd] in *;
    try exact Hb.
  exists ev1, m. split; [reflexivity | exact Hb].
Qed.

Lemma abrupt_strict (A : Type) (c : M D A) : abrupt c -> strict c.
Proof.
  intros Hc d. specialize (Hc d).
  destruct (result_of (c d)) as [a|[e|code]]; try exact Hc.
  destruct Hc as (before & m & Hev & Hq).
  exists before, m, []. rewrite app_nil_r. split; [exact Hev|].
  split; [exact Hq | now left].
Qed.

Lemma strict_bind (A B : Type) (c : M D A) (k : A -> M D B) :
  strict c -> (forall a, strict (k a)) -> strict (bind c k).
Proof.
  intros Hc Hk d. specialize (Hc d). unfold bind, result_of, events_of in *.
  destruct (c d) as [[[a|x] d1] ev1]; cbn [fst snd] in *; [|exact Hc].
  specialize (Hk a d1). unfold result_of, events_of in Hk.
  destruct (k a d1) as [[r d2] ev2]; cbn [fst snd] in *.
  destruct r as [b|[e|code]].
  - now apply quiet_app.
  - now apply quiet_app.
  - now apply fatal_then_release_app_l.
Qed.

Lemma strict_guard (A : Type) (body : M D A) :
  strict body -> strict (try_except_db body (fun e => _handle_sql_exception e)).
Proof.
  intros Hb d. specialize (Hb d). unfold try_except_db, result_of, events_of in *.
  destruct (body d) as [[[a|[[m|m]|code]] d1] ev1]; cbn [fst snd] in *;
    try exact Hb.
  exists ev1, m, []. rewrite app_nil_r. split; [reflexivity|].
  split; [exact Hb | now left].
Qed.

(** Leaving the [with] block releases the cursor after whatever its body
    did. *)
Lemma strict_with_cursor (A : Type) (conn : option pg_connection)
    (body : pg_cursor -> M D A) :
  (forall cur, abrupt (body cur)) -> strict (with_cursor pg conn body).
Proof.
  intros Hb. unfold with_cursor. apply strict_bind.
  - apply abrupt_strict.
    destruct conn; [now apply abrupt_answer | apply abrupt_raise_exc].
  - intros cur d. specialize (Hb cur d).
    unfold try_finally, close_cursor, result_of, events_of in *.
    destruct (body cur d) as [[r d1] ev1]; cbn [fst snd] in *.
    destruct r as [a|[e|code]].
    + apply quiet_app. now split.
    + apply quiet_app. now split.
    + now apply fatal_last_release.
Qed.

Lemma abrupt_print_result_set (cur : pg_cursor) : abrupt (_print_result_set pg cur).
Proof.
  unfold _print_result_set.
  apply abrupt_bind; [apply abrupt_print|]. intros _.
  apply abrupt_guard. apply abrupt_bind; [intros d; reflexivity|].
  intros [headers|]; [|apply abrupt_print].
  apply abrupt_bind; [apply abrupt_print|]. intros _.
  apply abrupt_bind; [now apply abrupt_answer|]. intros results.
  apply abrupt_bind; [|intros n; apply abrupt_print].
  intros d. rewrite print_rows_run. unfold result_of, events_of. cbn [fst snd].
  rewrite <- (map_map row_line Print). apply quiet_map_Print.
Qed.

Lemma strict_execute_query (self : QueryExecutor) (query : string) (print_results : bool) :
  strict (execute_query pg self query print_results).
Proof.
  unfold execute_query. apply strict_guard, strict_with_cursor. intros cur.
  apply abrupt_bind; [now apply abrupt_answer|]. intros _.
  apply abrupt_bind; [apply abrupt_print|]. intros _.
  destruct print_results; [apply abrupt_print_result_set | apply abrupt_ret].
Qed.

Lemma strict_init (supabase_conn : option string) (dbname schema_name : string) :
  strict (__init__ pg supabase_conn dbname schema_name).
Proof.
  unfold __init__, _initialize. apply strict_bind.
  - apply abrupt_strict, abrupt_guard. apply abrupt_bind.
    + destruct supabase_conn; now apply abrupt_answer.
    + intros conn. apply abrupt_bind; [|intros _; apply abrupt_ret].
      now apply abrupt_answer.
  - intros self. apply strict_bind; [apply abrupt_strict, abrupt_print|]. intros _.
    apply strict_bind;
      [|intros _; apply abrupt_strict, abrupt_bind;
                  [apply abrupt_print | intros _; apply abrupt_ret]].
    apply strict_guard, strict_with_cursor. intros cur.
    apply abrupt_bind; [|intros ident; now apply abrupt_answer].
    destruct (connection self) as [c|]; [|apply abrupt_raise_exc].
    intros d. unfold quote_ident, result_of, events_of. cbn [fst snd].
    destruct (pg_quote_ident pg (_schema_name self) c d); reflexivity.
Qed.

Lemma strict_exercises (qe : QueryExecutor) : strict (exercises pg qe).
Proof.
  unfold exercises, banner.
  repeat (apply strict_bind;
          [first [apply strict_execute_query
                 | apply abrupt_strict;
                   repeat (apply abrupt_bind; [apply abrupt_print|]; intros _);
                   apply abrupt_print]|];
          intros _).
  apply strict_execute_query.
Qed.

Lemma strict_try_block : strict (try_block pg).
Proof.
  unfold try_block. apply strict_bind; [apply strict_init | apply strict_exercises].
Qed.

(** The construction when the switch to autocommit is refused. *)
Lemma init_autocommit_fails (supabase_conn : option string) (dbname schema_name m : string)
    (c : pg_connection) (d d1 d2 : D) :
  pg_connect pg (connect_arguments supabase_conn dbname) d = (inr c, d1) ->
  pg_set_autocommit pg c true d1 = (inl (DbError m), d2) ->
  __init__ pg supabase_conn dbname schema_name d
  = (Raise (SystemExit 0), d2,
     ([Connect (connect_arguments supabase_conn dbname); SetAutocommit c true]
      ++ fatal_events (DbError m))%list).
Proof.
  intros Hconn Hauto. unfold __init__, _initialize.
  unfold bind at 1. unfold try_except_db at 1. unfold bind at 1.
  cbn [_dbname]. rewrite connect_arguments_run, Hconn.
  run_block. simpl. rewrite Hauto. reflexivity.
Qed.

(** The construction when no cursor can be opened. *)
Lemma init_cursor_fails (supabase_conn : option string) (dbname schema_name m : string)
    (c : pg_connection) (d d1 d2 d3 : D) :
  pg_connect pg (connect_arguments supabase_conn dbname) d = (inr c, d1) ->
  pg_set_autocommit pg c true d1 = (inr tt, d2) ->
  pg_open_cursor pg c d2 = (inl (DbError m), d3) ->
  __init__ pg supabase_conn dbname schema_name d
  = (Raise (SystemExit 0), d3,
     ([Connect (connect_arguments supabase_conn dbname); SetAutocommit c true;
       Print "Successfully connected to Postgres."; CursorOpen c]
      ++ fatal_events (DbError m))%list).
Proof.
  intros Hconn Hauto Hcur. unfold __init__, _initialize.
  unfold bind at 1. unfold try_except_db at 1. unfold bind at 1.
  cbn [_dbname]. rewrite connect_arguments_run, Hconn.
  run_block. simpl. rewrite Hauto. simpl. rewrite Hcur. reflexivity.
Qed.

(** The construction when the schema name cannot be quoted. *)
Lemma init_quote_fails (supabase_conn : option string) (dbname schema_name m : string)
    (c : pg_connection) (cur : pg_cursor) (d d1 d2 d3 : D) :
  pg_connect pg (connect_arguments supabase_conn dbname) d = (inr c, d1) ->
  pg_set_autocommit pg c true d1 = (inr tt, d2) ->
  pg_open_cursor pg c d2 = (inr cur, d3) ->
  pg_quote_ident pg schema_name c d3 = inl (DbError m) ->
  __init__ pg supabase_conn dbname schema_name d
  = (Raise (SystemExit 0), pg_close_cursor pg cur d3,
     ([Connect (connect_arguments supabase_conn dbname); SetAutocommit c true;
       Print "Successfully connected to Postgres."; CursorOpen c; CursorClose cur]
      ++ fatal_events (DbError m))%list).
Proof.
  intros Hconn Hauto Hcur Hquote. unfold __init__, _initialize.
  unfold bind at 1. unfold try_except_db at 1. unfold bind at 1.
  cbn [_dbname]. rewrite connect_arguments_run, Hconn.
  run_block. simpl. rewrite Hauto. simpl. rewrite Hcur. simpl.
  rewrite Hquote. reflexivity.
Qed.

(** A call whose cursor cannot be opened. *)
Lemma cursor_fails (self : QueryExecutor) (query : string) (print_results : bool)
    (m : string) (c : pg_connection) (d d1 : D) :
  connection self = Some c ->
  pg_open_cursor pg c d = (inl (DbError m), d1) ->
  execute pg self query d
  = (Raise (SystemExit 0), d1, ([CursorOpen c] ++ fatal_events (DbError m))%list)
  /\ execute_query pg self query print_results d
     = (Raise (SystemExit 0), d1, ([CursorOpen c] ++ fatal_events (DbError m))%list).
Proof.
  intros Hc Ho. run_block. rewrite Hc, Ho. now split.
Qed.

(** A run of the program that exits: the trace up to the [finally] block
    ends with the output of the fatal-error procedure and at most the
    release of the cursor, and the [finally] block adds the closing of the
    connection and its confirmation when the executor was constructed. *)
Lemma main_after_fatal (d : D) :
  match result_of (main pg d) with
  | Raise (SystemExit _) =>
      exists before m released,
        quiet before /\ released_only released
        /\ match constructed_qe pg d with
           | Some self =>
               exists c,
                 connection self = Some c
                 /\ events_of (main pg d)
                    = (before ++ fatal_events (DbError m) ++ released
                       ++ [ConnClose c; Print closed_text])%list
           | None =>
               events_of (main pg d)
               = (before ++ fatal_events (DbError m) ++ released)%list
           end
  | _ => True
  end.
Proof.
  rewrite main_eq.
  pose proof (strict_try_block d) as Hs.
  assert (Hclean : forall d1,
             result_of (cleanup pg (constructed_qe pg d) d1) = Ok tt
             /\ match constructed_qe pg d with
                | Some self =>
                    exists c, connection self = Some c
                              /\ events_of (cleanup pg (constructed_qe pg d) d1)
                                 = [ConnClose c; Print closed_text]
                | None => events_of (cleanup pg (constructed_qe pg d) d1) = []
                end).
  { intros d1. unfold constructed_qe.
    destruct (result_of (__init__ pg _SUPABASE_CONN DB_NAME "wine" d))
      as [self|x] eqn:Hinit; [|now split].
    destruct (init_ok_connected pg _ _ _ _ _ Hinit) as [c Hc].
    simpl. rewrite close_run, Hc. split; [reflexivity|]. now exists c. }
  unfold try_finally, try_except_Exception, result_of, events_of in *.
  destruct (try_block pg d) as [[[[]|[e|code]] d1] ev1]; cbn [fst snd] in *.
  - destruct (Hclean d1) as [Hok _].
    destruct (cleanup pg (constructed_qe pg d) d1) as [[rc d2] ev2].
    cbn [fst] in Hok. now subst rc.
  - unfold unexpected, bind, print, print_exc, emit. cbv beta iota.
    destruct (Hclean d1) as [Hok _].
    destruct (cleanup pg (constructed_qe pg d) d1) as [[rc d2] ev2].
    cbn [fst] in Hok. now subst rc.
  - destruct Hs as (before & m & released & -> & Hq & Hr).
    destruct (Hclean d1) as [Hok Hev].
    destruct (cleanup pg (constructed_qe pg d) d1) as [[rc d2] ev2].
    cbn [fst snd] in *. subst rc. cbn [fst].
    exists before, m, released. split; [exact Hq|]. split; [exact Hr|].
    destruct (constructed_qe pg d) as [self|].
    + destruct Hev as (c & Hc & ->). exists c. split; [exact Hc|].
      now rewrite <- !app_assoc.
    + subst ev2. now rewrite app_nil_r.
Qed.

End Strict.

(** ** The fatal-error procedure *)

(** C2, as amended: the fatal-error procedure writes the error detail on
    the error stream, prints a blank line and the line saying that it
    exits, and raises [SystemExit] with code 0; a database error raised by
    any call of the driver made by the constructor, [execute] or
    [execute_query] (connecting, switching to autocommit, opening a
    cursor, quoting the schema name, executing a statement, fetching the
    rows) ends in this procedure; nothing in the program catches that
    exit, so the main block always ends with exit status 0, and when it
    exits, what follows the output of the procedure is at most the release
    of the cursor and then, exactly when the executor had been
    constructed, the closing of its connection and the confirmation of
    it. *)
Theorem fatal_error_exits_with_zero {D : Type} (pg : psycopg2 D) (d : D) :
  (forall e,
      @_handle_sql_exception D unit e d
      = (Raise (SystemExit 0), d, [Traceback e; Print fatal_text]))
  /\ stdout_text [Print fatal_text]
     = stdout_text [Print EmptyString; Print "Exiting due to SQL error."]
  /\ (forall supabase_conn dbname schema_name m d1,
         pg_connect pg (connect_arguments supabase_conn dbname) d
         = (inl (DbError m), d1) ->
         __init__ pg supabase_conn dbname schema_name d
         = (Raise (SystemExit 0), d1,
            Connect (connect_arguments supabase_conn dbname)
            :: fatal_events (DbError m)))
  /\ (forall supabase_conn dbname schema_name m c d1 d2,
         pg_connect pg (connect_arguments supabase_conn dbname) d = (inr c, d1) ->
         pg_set_autocommit pg c true d1 = (inl (DbError m), d2) ->
         __init__ pg supabase_conn dbname schema_name d
         = (Raise (SystemExit 0), d2,
            ([Connect (connect_arguments supabase_conn dbname);
              SetAutocommit c true]
             ++ fatal_events (DbError m))%list))
  /\ (forall supabase_conn dbname schema_name m c d1 d2 d3,
         pg_connect pg (connect_arguments supabase_conn dbname) d = (inr c, d1) ->
         pg_set_autocommit pg c true d1 = (inr tt, d2) ->
         pg_open_cursor pg c d2 = (inl (DbError m), d3) ->
         __init__ pg supabase_conn dbname schema_name d
         = (Raise (SystemExit 0), d3,
            ([Connect (connect_arguments supabase_conn dbname);
              SetAutocommit c true;
              Print "Successfully connected to Postgres."; CursorOpen c]
             ++ fatal_events (DbError m))%list))
  /\ (forall supabase_conn dbname schema_name m c cur d1 d2 d3,
         pg_connect pg (connect_arguments supabase_conn dbname) d = (inr c, d1) ->
         pg_set_autocommit pg c true d1 = (inr tt, d2) ->
         pg_open_cursor pg c d2 = (inr cur, d3) ->
         pg_quote_ident pg schema_name c d3 = inl (DbError m) ->
         __init__ pg supabase_conn dbname schema_name d
         = (Raise (SystemExit 0), pg_close_cursor pg cur d3,
            ([Connect (connect_arguments supabase_conn dbname);
              SetAutocommit c true;
              Print "Successfully connected to Postgres."; CursorOpen c;
              CursorClose cur]
             ++ fatal_events (DbError m))%list))
  /\ (forall supabase_conn dbname schema_name ident m c cur d1 d2 d3 d4,
         pg_connect pg (connect_arguments supabase_conn dbname) d = (inr c, d1) ->
         pg_set_autocommit pg c true d1 = (inr tt, d2) ->
         pg_open_cursor pg c d2 = (inr cur, d3) ->
         pg_quote_ident pg schema_name c d3 = inr ident ->
         pg_execute pg cur (search_path_statement ident) d3
         = (inl (DbError m), d4) ->
         __init__ pg supabase_conn dbname schema_name d
         = (Raise (SystemExit 0), pg_close_cursor pg cur d4,
            ([Connect (connect_arguments supabase_conn dbname);
              SetAutocommit c true;
              Print "Successfully connected to Postgres."; CursorOpen c;
              Execute cur (search_path_statement ident); CursorClose cur]
             ++ fatal_events (DbError m))%list))
  /\ (forall self query print_results m c d1,
         connection self = Some c ->
         pg_open_cursor pg c d = (inl (DbError m), d1) ->
         execute pg self query d
         = (Raise (SystemExit 0), d1,
            ([CursorOpen c] ++ fatal_events (DbError m))%list)
         /\ execute_query pg self query print_results d
            = (Raise (SystemExit 0), d1,
               ([CursorOpen c] ++ fatal_events (DbError m))%list))
  /\ (forall self query print_results m c cur d1 d2,
         connection self = Some c ->
         pg_open_cursor pg c d = (inr cur, d1) ->
         pg_execute pg cur query d1 = (inl (DbError m), d2) ->
         execute pg self query d
         = (Raise (SystemExit 0), pg_close_cursor pg cur d2,
            ([CursorOpen c; Execute cur query; CursorClose cur]
             ++ fatal_events (DbError m))%list)
         /\ execute_query pg self query print_results d
            = (Raise (SystemExit 0), pg_close_cursor pg cur d2,
               ([CursorOpen c; Execute cur query; CursorClose cur]
                ++ fatal_events (DbError m))%list))
  /\ (forall self query headers m c cur d1 d2 d3,
         connection self = Some c ->
         pg_open_cursor pg c d = (inr cur, d1) ->
         pg_execute pg cur query d1 = (inr tt, d2) ->
         pg_description pg cur d2 = Some headers ->
         pg_fetchall pg cur d2 = (inl (DbError m), d3) ->
         execute_query pg self query true d
         = (Raise (SystemExit 0), pg_close_cursor pg cur d3,
            ([CursorOpen c; Execute cur query; Print (execution_message query);
              Print "Result set:"; Print (join " | " headers); Fetchall cur]
             ++ fatal_events (DbError m) ++ [CursorClose cur])%list))
  /\ exit_status (result_of (main pg d)) = 0%Z
  /\ match result_of (main pg d) with
     | Ok _ => quiet (events_of (main pg d))
     | Raise (SystemExit code) =>
         code = 0%Z /\ ends_fatally (events_of (main pg d))
     | Raise (Exc _) => False
     end
  /\ match result_of (main pg d) with
     | Raise (SystemExit _) =>
         exists before m released,
           quiet before /\ released_only released
           /\ match constructed_qe pg d with
              | Some self =>
                  exists c,
                    connection self = Some c
                    /\ events_of (main pg d)
                       = (before ++ fatal_events (DbError m) ++ released
                          ++ [ConnClose c; Print closed_text])%list
              | None =>
                  events_of (main pg d)
                  = (before ++ fatal_events (DbError m) ++ released)%list
              end
     | _ => True
     end.
Proof.
  split; [intros e; reflexivity|].
  split; [reflexivity|].
  split; [intros; now apply init_connect_fails|].
  split; [intros; eapply init_autocommit_fails; eassumption|].
  split; [intros; eapply init_cursor_fails; eassumption|].
  split; [intros; eapply init_quote_fails; eassumption|].
  split.
  { intros supabase_conn dbname schema_name ident m c cur d1 d2 d3 d4 H1 H2 H3 H4 H5.
    rewrite (init_run pg _ _ _ _ _ _ _ _ _ _ _ _ H1 H2 H3 H4 H5). reflexivity. }
  split; [intros; now apply cursor_fails|].
  split.
  { intros self query print_results m c cur d1 d2 Hc Ho He. split.
    - rewrite (execute_run pg _ _ _ _ _ _ _ _ Hc Ho He). reflexivity.
    - rewrite (execute_query_run pg _ _ print_results _ _ _ _ _ _ Hc Ho He).
      reflexivity. }
  split.
  { intros self query headers m c cur d1 d2 d3 Hc Ho He Hd Hf.
    rewrite (execute_query_run pg _ _ true _ _ _ _ _ _ Hc Ho He).
    unfold rendering. rewrite print_result_set_run, Hd, Hf. reflexivity. }
  pose proof (main_lets_nothing_out pg d) as H.
  pose proof (orderly_main pg d) as Ho.
  pose proof (main_after_fatal pg d) as Hafter.
  destruct (result_of (main pg d)) as [[]|[e|code]]; simpl in *.
  - split; [reflexivity | split; [exact Ho | exact I]].
  - contradiction.
  - split; [exact H | split; [split; [exact H | exact Ho] | exact Hafter]].
Qed.

(** On the scripted databases, one run for each call that can raise: the
    server refuses the connection; autocommit is refused; the connection
    is already closed when the cursor is asked for; the schema name cannot
    be quoted; the schema does not exist; a statement is sent on a closed
    connection; a statement names a table that does not exist; the
    connection is lost while the rows are fetched; and the whole program
    with a failing first query. *)
Lemma fatal_error_exits_with_zero_witness :
  __init__ Scripted.driver _SUPABASE_CONN "postgres" "wine"
    (Scripted.start [Scripted.Fails (DbError "connection refused")])
  = (Raise (SystemExit 0), Scripted.start [],
     [Connect (ConnKeywords "postgres" "postgres" EmptyString "localhost" "5432" "UTF8");
      Traceback (DbError "connection refused"); Print fatal_text])
  /\ prints (events_of (__init__ no_autocommit_driver _SUPABASE_CONN "postgres" "wine"
                          (Scripted.start [])))
     = [fatal_text]
  /\ prints (events_of (__init__ strict_driver _SUPABASE_CONN "postgres" "wine"
                          closed_session))
     = ["Successfully connected to Postgres."; fatal_text]
  /\ prints (events_of (__init__ no_quote_driver _SUPABASE_CONN "postgres" "wine"
                          (Scripted.start [])))
     = ["Successfully connected to Postgres."; fatal_text]
  /\ result_of (__init__ Scripted.driver _SUPABASE_CONN "postgres" "nowhere"
       (Scripted.start [Scripted.Command; Scripted.Fails (DbError "no schema")]))
     = Raise (SystemExit 0)
  /\ prints (events_of (execute strict_driver scripted_qe "SELECT 1" closed_session))
     = [fatal_text]
  /\ prints (events_of (execute Scripted.driver scripted_qe "DROP TABLE nothing"
       (Scripted.start [Scripted.Fails (DbError "no such table")])))
     = [fatal_text]
  /\ prints (events_of (execute_query Scripted.driver scripted_qe "SELECT 1" true
       (Scripted.start [Scripted.BrokenResultSet ["n"] (DbError "connection lost")])))
     = [execution_message "SELECT 1"; "Result set:"; "n"; fatal_text]
  /\ exists before m released,
       events_of (main Scripted.driver (Scripted.start script_failing_query))
       = (before ++ fatal_events (DbError m) ++ released
          ++ [ConnClose 1; Print closed_text])%list.
Proof.
  repeat match goal with |- _ /\ _ => split end.
  - destruct (fatal_error_exits_with_zero Scripted.driver
                (Scripted.start [Scripted.Fails (DbError "connection refused")]))
      as (_ & _ & H & _).
    apply H. reflexivity.
  - destruct (fatal_error_exits_with_zero no_autocommit_driver (Scripted.start []))
      as (_ & _ & _ & H & _).
    erewrite (H _SUPABASE_CONN "postgres" "wine"); reflexivity.
  - destruct (fatal_error_exits_with_zero strict_driver closed_session)
      as (_ & _ & _ & _ & H & _).
    erewrite (H _SUPABASE_CONN "postgres" "wine"); reflexivity.
  - destruct (fatal_error_exits_with_zero no_quote_driver (Scripted.start []))
      as (_ & _ & _ & _ & _ & H & _).
    erewrite (H _SUPABASE_CONN "postgres" "wine"); reflexivity.
  - destruct (fatal_error_exits_with_zero Scripted.driver
                (Scripted.start [Scripted.Command; Scripted.Fails (DbError "no schema")]))
      as (_ & _ & _ & _ & _ & _ & H & _).
    erewrite (H _SUPABASE_CONN "postgres" "nowhere"); reflexivity.
  - destruct (fatal_error_exits_with_zero strict_driver closed_session)
      as (_ & _ & _ & _ & _ & _ & _ & H & _).
    erewrite (proj1 (H scripted_qe "SELECT 1" true _ _ _ eq_refl eq_refl));
      reflexivity.
  - destruct (fatal_error_exits_with_zero Scripted.driver
                (Scripted.start [Scripted.Fails (DbError "no such table")]))
      as (_ & _ & _ & _ & _ & _ & _ & _ & H & _).
    erewrite (proj1 (H scripted_qe "DROP TABLE nothing" true _ _ _ _ _
                       eq_refl eq_refl eq_refl));
      reflexivity.
  - destruct (fatal_error_exits_with_zero Scripted.driver
                (Scripted.start [Scripted.BrokenResultSet ["n"] (DbError "connection lost")]))
      as (_ & _ & _ & _ & _ & _ & _ & _ & _ & H & _).
    erewrite (H scripted_qe "SELECT 1" _ _ _ _ _ _ _
                eq_refl eq_refl eq_refl eq_refl eq_refl);
      reflexivity.
  - destruct (fatal_error_exits_with_zero Scripted.driver
                (Scripted.start script_failing_query))
      as (_ & _ & _ & _ & _ & _ & _ & _ & _ & _ & _ & _ & H).
    destruct H as (before & m & released & _ & _ & c & Hc & Hev).
    exists before, m, released. injection Hc as <-. exact Hev.
Defined.

(** C2, as stated, fails: a query names a table that does not exist; after
    the line of the fatal-error procedure the connection is closed and the
    confirmation is printed, and only then does the process end, with
    status 0. *)
Lemma fatal_error_is_followed_by_close :
  result_of (main Scripted.driver (Scripted.start script_failing_query))
  = Raise (SystemExit 0)
  /\ prints (events_of (main Scripted.driver (Scripted.start script_failing_query)))
     = ["Successfully connected to Postgres."; "Using schema 'wine'." ++ nl;
        slashes; "//////////// Question 7.9E  ////"; slashes;
        nl ++ "Exiting due to SQL error."; "Database connection closed."]
  /\ exists before,
       events_of (main Scripted.driver (Scripted.start script_failing_query))
       = (before ++ [Traceback (DbError "relation does not exist");
                     Print fatal_text; ConnClose 1; Print closed_text])%list.
Proof.
  split; [reflexivity|]. split; [reflexivity|].
  eexists (firstn 13 (events_of (main Scripted.driver
                                   (Scripted.start script_failing_query)))).
  reflexivity.
Qed.

(** * Further properties *)

(** ** The text of the execution message *)

Section MessageText.

Lemma length_app_str (s t : string) :
  String.length (s ++ t) = String.length s + String.length t.
Proof. induction s as [|c s IH]; simpl; [reflexivity | now rewrite IH]. Qed.

Lemma length_slice_to (n : nat) (s : string) : String.length (slice_to n s) <= n.
Proof.
  revert s. induction n as [|n IH]; intros [|c s]; simpl; try lia.
  specialize (IH s). lia.
Qed.

Lemma length_replace_char (old new : ascii) (s : string) :
  String.length (replace_char old new s) = String.length s.
Proof. induction s as [|c s IH]; simpl; [reflexivity | now rewrite IH]. Qed.

Lemma length_sub_ws_from (b : bool) (s : string) :
  String.length (sub_ws_from b s) <= String.length s.
Proof.
  revert b. induction s as [|c s IH]; intros b; simpl; [lia|].
  pose proof (IH true) as Ht. pose proof (IH false) as Hf.
  destruct (isspace c); [destruct b|]; simpl; lia.
Qed.

Lemma length_rstrip (s : string) : String.length (rstrip s) <= String.length s.
Proof.
  induction s as [|c s IH]; simpl; [lia|].
  destruct (rstrip s) as [|c' r]; [destruct (isspace c)|]; simpl in *; lia.
Qed.

Lemma length_cut (query : string) :
  String.length (cut query)
  <= if (55 <? String.length query)%nat then 58 else String.length query.
Proof.
  unfold cut. destruct (55 <? String.length query)%nat; [|lia].
  rewrite length_app_str. pose proof (length_slice_to 55 query).
  change (String.length "...") with 3. lia.
Qed.

(** After [lstrip], the collapsed text is the one collapsed as if a run
    were already open at its start. *)
Lemma lstrip_sub_ws_from (b : bool) (s : string) :
  lstrip (sub_ws_from b s) = sub_ws_from true s.
Proof.
  revert b. induction s as [|c s IH]; intros b; simpl; [reflexivity|].
  destruct (isspace c) eqn:Hc.
  - destruct b; [apply IH|]. simpl. apply IH.
  - simpl. now rewrite Hc.
Qed.

Lemma execution_text_eq (query : string) :
  execution_text query = rstrip (sub_ws_from true (cut query)).
Proof.
  unfold execution_text, strip, re_sub_ws. fold (cut query).
  now rewrite lstrip_sub_ws_from, sub_ws_from_replace_newline.
Qed.

(** What [rstrip] leaves of a collapsed text is empty or single-spaced. *)
Lemma rstrip_sub_ws_from_spaced (b : bool) (s : string) :
  rstrip (sub_ws_from b s) = EmptyString
  \/ spaced_from b (rstrip (sub_ws_from b s)) = true.
Proof.
  revert b. induction s as [|c s IH]; intros b; simpl; [now left|].
  destruct (isspace c) eqn:Hc.
  - destruct b; [apply IH|].
    simpl. destruct (IH true) as [He|Hs].
    + rewrite He. now left.
    + destruct (rstrip (sub_ws_from true s)) as [|c' r] eqn:Hr; [now left|].
      right. simpl in *. exact Hs.
  - simpl. destruct (IH false) as [He|Hs].
    + rewrite He, Hc. right. simpl. now rewrite Hc.
    + destruct (rstrip (sub_ws_from false s)) as [|c' r] eqn:Hr.
      * rewrite Hc. right. simpl. now rewrite Hc.
      * right. change (spaced_from b (String c (String c' r)) = true).
        simpl. rewrite Hc. exact Hs.
Qed.

Lemma visible_sub_ws_from (b : bool) (s : string) :
  visible (sub_ws_from b s) = visible s.
Proof.
  revert b. induction s as [|c s IH]; intros b; simpl; [reflexivity|].
  destruct (isspace c) eqn:Hc; [destruct b|]; simpl; rewrite ?Hc; now rewrite IH.
Qed.

Lemma visible_rstrip (s : string) : visible (rstrip s) = visible s.
Proof.
  induction s as [|c s IH]; simpl; [reflexivity|].
  destruct (rstrip s) as [|c' r] eqn:Hr.
  - destruct (isspace c) eqn:Hc; simpl; rewrite ?Hc; now rewrite <- IH.
  - change (visible (String c (String c' r))) with
      (if isspace c then visible (String c' r) else String c (visible (String c' r))).
    now rewrite IH.
Qed.

Lemma spaced_sub_ws_from (b : bool) (s : string) :
  spaced_from b s = true -> sub_ws_from b s = s.
Proof.
  revert b. induction s as [|c s IH]; intros b; simpl; [reflexivity|].
  destruct (isspace c).
  - intros H. apply andb_true_iff in H as [H Hs].
    apply andb_true_iff in H as [Hc Hb].
    apply Ascii.eqb_eq in Hc. subst c.
    destruct b; [discriminate Hb|]. now rewrite (IH true Hs).
  - intros Hs. now rewrite (IH false Hs).
Qed.

Lemma spaced_rstrip (b : bool) (s : string) :
  spaced_from b s = true -> rstrip s = s.
Proof.
  revert b. induction s as [|c s IH]; intros b; simpl; [reflexivity|].
  destruct (isspace c) eqn:Hc.
  - intros H. apply andb_true_iff in H as [_ Hs].
    rewrite (IH true Hs). destruct s; [discriminate Hs | reflexivity].
  - intros Hs. rewrite (IH false Hs). destruct s; reflexivity.
Qed.

(** X1: the text between the quotes of the execution message has at most
    58 characters, and at most as many as the query when the query has at
    most 55. *)
Theorem execution_text_length (query : string) :
  String.length (execution_text query)
  <= if (55 <? String.length query)%nat then 58 else String.length query.
Proof.
  rewrite execution_text_eq.
  pose proof (length_rstrip (sub_ws_from true (cut query))).
  pose proof (length_sub_ws_from true (cut query)).
  pose proof (length_cut query).
  destruct (55 <? String.length query)%nat; lia.
Qed.

(** X2: the text of the execution message is single-spaced: it neither
    starts nor ends with whitespace, and its only whitespace characters
    are spaces that stand alone between two other characters. *)
Theorem execution_text_single_spaced (query : string) :
  single_spaced (execution_text query) = true.
Proof.
  rewrite execution_text_eq.
  destruct (rstrip_sub_ws_from_spaced true (cut query)) as [He|Hs].
  - now rewrite He.
  - unfold single_spaced.
    destruct (rstrip (sub_ws_from true (cut query))); [reflexivity | exact Hs].
Qed.

(** X3: the message keeps every character of the cut query that is not
    whitespace, in order, and adds none. *)
Theorem execution_text_visible (query : string) :
  visible (execution_text query) = visible (cut query).
Proof.
  rewrite execution_text_eq. now rewrite visible_rstrip, visible_sub_ws_from.
Qed.

(** X4: a query of at most 55 characters that is already single-spaced is
    echoed as it is. *)
Theorem execution_text_verbatim (query : string) :
  String.length query <= 55 ->
  single_spaced query = true ->
  execution_text query = query.
Proof.
  intros Hlen Hs. rewrite execution_text_eq. unfold cut.
  destruct (Nat.ltb_spec 55 (String.length query)) as [Hlong|_]; [lia|].
  destruct query as [|c s]; [reflexivity|].
  unfold single_spaced in Hs.
  rewrite (spaced_sub_ws_from true _ Hs). exact (spaced_rstrip true _ Hs).
Qed.

(** A statement written on one line with single spaces. *)
Lemma execution_text_verbatim_witness :
  String.length "SELECT COUNT(*) FROM supplier" <= 55
  /\ single_spaced "SELECT COUNT(*) FROM supplier" = true
  /\ execution_text "SELECT COUNT(*) FROM supplier" = "SELECT COUNT(*) FROM supplier".
Proof.
  assert (Hlen : String.length "SELECT COUNT(*) FROM supplier" <= 55)
    by (vm_compute; lia).
  split; [exact Hlen|]. split; [reflexivity|].
  exact (execution_text_verbatim "SELECT COUNT(*) FROM supplier" Hlen eq_refl).
Defined.

(** X5: replacing the newlines before collapsing changes nothing: the
    text is the cut query with its whitespace runs collapsed and its ends
    trimmed. *)
Theorem execution_text_without_replace (query : string) :
  execution_text query = strip (re_sub_ws (cut query)).
Proof.
  unfold execution_text, re_sub_ws. fold (cut query).
  now rewrite sub_ws_from_replace_newline.
Qed.

End MessageText.

(** ** Projections of traces *)

Lemma statements_app (evs evs' : list event) :
  statements (evs ++ evs') = (statements evs ++ statements evs')%list.
Proof.
  induction evs as [|e evs IH]; [reflexivity|].
  destruct e; simpl; now rewrite ?IH.
Qed.

Lemma connects_app (evs evs' : list event) :
  connects (evs ++ evs') = (connects evs ++ connects evs')%list.
Proof.
  induction evs as [|e evs IH]; [reflexivity|].
  destruct e; simpl; now rewrite ?IH.
Qed.

Lemma conn_closes_app (evs evs' : list event) :
  conn_closes (evs ++ evs') = (conn_closes evs ++ conn_closes evs')%list.
Proof.
  induction evs as [|e evs IH]; [reflexivity|].
  destruct e; simpl; now rewrite ?IH.
Qed.

Lemma cursor_closes_app (evs evs' : list event) :
  cursor_closes (evs ++ evs') = (cursor_closes evs ++ cursor_closes evs')%list.
Proof.
  induction evs as [|e evs IH]; [reflexivity|].
  destruct e; simpl; now rewrite ?IH.
Qed.

Lemma no_use_after_close_app (evs evs' : list event) :
  cursor_closes evs = [] ->
  no_use_after_close false (evs ++ evs') = no_use_after_close false evs'.
Proof.
  induction evs as [|e evs IH]; [reflexivity|].
  destruct e; simpl; intros H; try discriminate H; now apply IH.
Qed.

Lemma no_connection_event (evs : list event) :
  existsb is_connection_event evs = false ->
  connects evs = [] /\ conn_closes evs = [].
Proof.
  induction evs as [|e evs IH]; [now split|].
  destruct e; simpl; intros H; try discriminate H; now apply IH.
Qed.

Lemma no_conn_close (evs : list event) :
  (forall c, ~ In (ConnClose c) evs) -> conn_closes evs = [].
Proof.
  induction evs as [|e evs IH]; [reflexivity|]. intros H.
  assert (Hrest : conn_closes evs = [])
    by (apply IH; intros c Hin; exact (H c (or_intror Hin))).
  destruct e; simpl; try exact Hrest.
  exfalso. exact (H c (or_introl eq_refl)).
Qed.

(** The lines of a table are prints only. *)
Lemma rows_only_print (results : list (list pyvalue)) :
  statements (map (fun row => Print (row_line row)) results) = []
  /\ cursor_closes (map (fun row => Print (row_line row)) results) = []
  /\ existsb is_connection_event (map (fun row => Print (row_line row)) results) = false
  /\ forall evs, no_use_after_close false
                   (map (fun row => Print (row_line row)) results ++ evs)
                 = no_use_after_close false evs.
Proof.
  induction results as [|row rest (Hs & Hc & He & Hn)]; simpl; auto.
Qed.

Section Traces.

Context {D : Type} (pg : psycopg2 D).

(** What [_print_result_set] leaves in a trace besides prints: at most a
    fetch and a traceback. *)
Lemma print_result_set_trace (cursor : pg_cursor) (d : D) :
  statements (events_of (_print_result_set pg cursor d)) = []
  /\ cursor_closes (events_of (_print_result_set pg cursor d)) = []
  /\ existsb is_connection_event (events_of (_print_result_set pg cursor d)) = false
  /\ forall evs, no_use_after_close false (events_of (_print_result_set pg cursor d) ++ evs)
                 = no_use_after_close false evs.
Proof.
  rewrite print_result_set_run.
  destruct (pg_description pg cursor d) as [headers|]; [|now repeat split].
  destruct (pg_fetchall pg cursor d) as [[[m|m]|results] d1];
    try (now repeat split).
  destruct (rows_only_print results) as (Hs & Hc & He & Hn).
  unfold events_of. cbn [snd].
  repeat split.
  - cbn [app statements]. now rewrite statements_app, Hs.
  - cbn [app cursor_closes]. now rewrite cursor_closes_app, Hc.
  - cbn [app existsb is_connection_event orb]. now rewrite existsb_app, He.
  - intros evs. cbn [app no_use_after_close negb andb].
    now rewrite <- app_assoc, Hn.
Qed.

(** X6: [execute] and [execute_query] without the table do the same: the
    same outcome, the same state of the driver, the same cursor closed,
    and the same trace once the cursor-close events are left out.  They
    differ only when the statement succeeds: [execute] then prints the
    message after the cursor is closed, [execute_query] before; in every
    other case their traces are equal. *)
Theorem execute_as_execute_query (self : QueryExecutor) (query : string) (d : D) :
  result_of (execute pg self query d)
  = result_of (execute_query pg self query false d)
  /\ state_of (execute pg self query d)
     = state_of (execute_query pg self query false d)
  /\ cursor_closes (events_of (execute pg self query d))
     = cursor_closes (events_of (execute_query pg self query false d))
  /\ without_cursor_closes (events_of (execute pg self query d))
     = without_cursor_closes (events_of (execute_query pg self query false d))
  /\ match result_of (execute pg self query d) with
     | Ok _ =>
         exists c cur,
           connection self = Some c
           /\ events_of (execute pg self query d)
              = [CursorOpen c; Execute cur query; CursorClose cur;
                 Print (execution_message query)]
           /\ events_of (execute_query pg self query false d)
              = [CursorOpen c; Execute cur query;
                 Print (execution_message query); CursorClose cur]
     | Raise _ =>
         events_of (execute pg self query d)
         = events_of (execute_query pg self query false d)
     end.
Proof.
  destruct (connection self) as [c|] eqn:Hc.
  - destruct (pg_open_cursor pg c d) as [[e|cur] d1] eqn:Ho.
    + run_block. rewrite Hc, Ho. destruct e as [m|m]; repeat split.
    + destruct (pg_execute pg cur query d1) as [a d2] eqn:He.
      rewrite (execute_run pg _ _ _ _ _ _ _ _ Hc Ho He).
      rewrite (execute_query_run pg _ _ false _ _ _ _ _ _ Hc Ho He).
      destruct a as [[m|m]|[]]; repeat split.
      exists c, cur. repeat split.
  - run_block. rewrite Hc. repeat split.
Qed.

(** X7: once its cursor is open, a call of [execute] or [execute_query]
    closes it exactly once, whatever the statement and the fetch answer,
    and neither executes nor fetches anything afterwards; a cursor that
    could not be opened is not closed. *)
Theorem cursor_released (self : QueryExecutor) (query : string) (print_results : bool)
    (c : pg_connection) (d : D) :
  connection self = Some c ->
  (forall cur d1,
      pg_open_cursor pg c d = (inr cur, d1) ->
      cursor_closes (events_of (execute pg self query d)) = [cur]
      /\ no_use_after_close false (events_of (execute pg self query d)) = true
      /\ cursor_closes (events_of (execute_query pg self query print_results d)) = [cur]
      /\ no_use_after_close false
           (events_of (execute_query pg self query print_results d)) = true)
  /\ (forall e d1,
         pg_open_cursor pg c d = (inl e, d1) ->
         cursor_closes (events_of (execute pg self query d)) = []
         /\ cursor_closes (events_of (execute_query pg self query print_results d)) = []).
Proof.
  intros Hc. split.
  - intros cur d1 Ho.
    destruct (pg_execute pg cur query d1) as [a d2] eqn:He.
    rewrite (execute_run pg _ _ _ _ _ _ _ _ Hc Ho He).
    rewrite (execute_query_run pg _ _ print_results _ _ _ _ _ _ Hc Ho He).
    destruct a as [[m|m]|[]]; try (now repeat split).
    unfold rendering. destruct print_results; [|now repeat split].
    destruct (print_result_set_trace cur d2) as (_ & Hcc & _ & Hn).
    destruct (_print_result_set pg cur d2) as [[r d3] evs].
    unfold events_of in *. cbn [snd] in *.
    repeat split.
    + cbn [app cursor_closes]. now rewrite cursor_closes_app, Hcc.
    + cbn [app no_use_after_close negb andb]. now rewrite Hn.
  - intros e d1 Ho. run_block. rewrite Hc, Ho.
    destruct e as [m|m]; now split.
Qed.

(** X8: without a cursor no statement is sent and no message is printed:
    on an executor that holds no connection the attribute error of the
    cursor call goes to the caller with nothing done, and when opening
    the cursor raises a database error the call ends in the fatal-error
    procedure. *)
Theorem no_cursor_no_statement (self : QueryExecutor) (query : string)
    (print_results : bool) (d : D) :
  (connection self = None ->
   execute pg self query d = (Raise (Exc (OtherError no_cursor_attribute)), d, [])
   /\ execute_query pg self query print_results d
      = (Raise (Exc (OtherError no_cursor_attribute)), d, []))
  /\ (forall c m d1,
         connection self = Some c ->
         pg_open_cursor pg c d = (inl (DbError m), d1) ->
         execute pg self query d
         = (Raise (SystemExit 0), d1, CursorOpen c :: fatal_events (DbError m))
         /\ execute_query pg self query print_results d
            = (Raise (SystemExit 0), d1, CursorOpen c :: fatal_events (DbError m))).
Proof.
  split.
  - intros Hc. run_block. rewrite Hc. now split.
  - intros c m d1 Hc Ho. run_block. rewrite Hc, Ho. now split.
Qed.

End Traces.

(** An executor that was never connected; and an executor whose
    connection was closed, on the database that then refuses cursors. *)
Lemma no_cursor_no_statement_witness :
  execute Scripted.driver unconnected_qe "SELECT 1" (Scripted.start [])
  = (Raise (Exc (OtherError no_cursor_attribute)), Scripted.start [], [])
  /\ prints (events_of (execute_query strict_driver scripted_qe "SELECT 1" true
                          closed_session))
     = [fatal_text].
Proof.
  split.
  - exact (proj1 (proj1 (no_cursor_no_statement Scripted.driver unconnected_qe
                           "SELECT 1" true (Scripted.start [])) eq_refl)).
  - rewrite (proj2 (proj2 (no_cursor_no_statement strict_driver scripted_qe
                             "SELECT 1" true closed_session)
                          1 "connection already closed" closed_session
                          eq_refl eq_refl)).
    reflexivity.
Defined.

(** A query whose rows are fetched and printed. *)
Lemma cursor_released_witness :
  cursor_closes (events_of (execute_query Scripted.driver scripted_qe "SELECT 1" true
                              (Scripted.start [Scripted.ResultSet ["n"] [[PyInt 1]]])))
  = [1]
  /\ no_use_after_close false
       (events_of (execute_query Scripted.driver scripted_qe "SELECT 1" true
                     (Scripted.start [Scripted.ResultSet ["n"] [[PyInt 1]]])))
     = true.
Proof.
  destruct (proj1 (cursor_released Scripted.driver scripted_qe "SELECT 1" true 1
                     (Scripted.start [Scripted.ResultSet ["n"] [[PyInt 1]]]) eq_refl)
                  1 _ eq_refl) as (_ & _ & Hc & Hn).
  split; [exact Hc | exact Hn].
Defined.

(** ** The constructor, by what the driver answers *)

(** Unfold a construction for either value of the class attribute, and go
    through the five answers it waits for: [leaf] closes the cases where an
    answer is an exception, [last] the three cases of the last answer. *)
Ltac open_init :=
  unfold __init__, _initialize, connect_arguments,
    PG_USER, PG_PASSWORD, PG_HOST, PG_PORT_NUMBER;
  run_block; unfold result_of, events_of, get_connection; simpl.

Ltac by_answers leaf last :=
  answer;
  [leaf .. | answer;
  [leaf .. | answer;
  [leaf .. | answer;
  [leaf .. | answer; last]]]].

Section ConstructorFacts.

Context {D : Type} (pg : psycopg2 D).

(** The statements of a construction: none, or the search-path statement;
    the latter when the constructor returns. *)
Lemma init_statements_shape (supabase_conn : option string) (dbname schema_name : string)
    (d : D) :
  exists ident,
    (statements (events_of (__init__ pg supabase_conn dbname schema_name d)) = []
     \/ statements (events_of (__init__ pg supabase_conn dbname schema_name d))
        = [search_path_statement ident])
    /\ (forall self,
           result_of (__init__ pg supabase_conn dbname schema_name d) = Ok self ->
           statements (events_of (__init__ pg supabase_conn dbname schema_name d))
           = [search_path_statement ident]).
Proof.
  destruct supabase_conn as [dsn|]; open_init;
    by_answers
      ltac:(exists EmptyString; split; [now left | intros ? H; discriminate H])
      ltac:(exists ident; (split; [now right|]); intros self H;
            first [discriminate H | reflexivity]).
Qed.

(** When a construction sends its statement or returns, the connection
    was opened and switched to autocommit, both with success, and its
    trace starts with these two calls. *)
Lemma init_autocommit_first (supabase_conn : option string) (dbname schema_name : string)
    (d : D) :
  statements (events_of (__init__ pg supabase_conn dbname schema_name d)) <> []
  \/ (exists self, result_of (__init__ pg supabase_conn dbname schema_name d) = Ok self) ->
  exists c d1 d2 rest,
    pg_connect pg (connect_arguments supabase_conn dbname) d = (inr c, d1)
    /\ pg_set_autocommit pg c true d1 = (inr tt, d2)
    /\ events_of (__init__ pg supabase_conn dbname schema_name d)
       = Connect (connect_arguments supabase_conn dbname) :: SetAutocommit c true :: rest.
Proof.
  destruct supabase_conn as [dsn|]; open_init.
  all: match goal with
       | |- context [pg_connect ?p ?a ?x] =>
           destruct (pg_connect p a x) as [[[m|m]|c] d1]
       end; simpl;
       [intros [H|[self H]]; [now destruct H | discriminate H] ..|].
  all: destruct (pg_set_autocommit pg c true d1) as [[[m|m]|[]] d2] eqn:Hauto; simpl;
       [intros [H|[self H]]; [now destruct H | discriminate H] ..|].
  all: intros _.
  all: answer;
       [exists c, d1, d2; eexists;
        (split; [reflexivity | split; [exact Hauto | reflexivity]]) ..|].
  all: answer;
       [exists c, d1, d2; eexists;
        (split; [reflexivity | split; [exact Hauto | reflexivity]]) ..|].
  all: answer; exists c, d1, d2; eexists;
       (split; [reflexivity | split; [exact Hauto | reflexivity]]).
Qed.

(** X12: an executor that was constructed holds the connection that
    [psycopg2.connect] returned for its arguments, which is what
    [get_connection] gives, and the names it was constructed with. *)
Theorem constructed_executor (supabase_conn : option string) (dbname schema_name : string)
    (d : D) (self : QueryExecutor) :
  result_of (__init__ pg supabase_conn dbname schema_name d) = Ok self ->
  exists c d1,
    pg_connect pg (connect_arguments supabase_conn dbname) d = (inr c, d1)
    /\ get_connection self = Some c
    /\ _schema_name self = schema_name
    /\ _dbname self = dbname.
Proof.
  destruct supabase_conn as [dsn|]; open_init;
    by_answers
      ltac:(discriminate)
      ltac:(try discriminate; intros H; injection H as <-;
            eexists; eexists; repeat split).
Qed.

(** X13: what the constructor prints, by how it ends: both confirmations
    when it returns; the fatal lines, after the first confirmation if the
    connection had been opened, when it exits; at most the first
    confirmation when another exception comes out of it. *)
Theorem constructor_prints (supabase_conn : option string) (dbname schema_name : string)
    (d : D) :
  match result_of (__init__ pg supabase_conn dbname schema_name d) with
  | Ok _ =>
      prints (events_of (__init__ pg supabase_conn dbname schema_name d))
      = ["Successfully connected to Postgres.";
         "Using schema '" ++ schema_name ++ "'." ++ nl]
  | Raise (SystemExit _) =>
      prints (events_of (__init__ pg supabase_conn dbname schema_name d))
      = [fatal_text]
      \/ prints (events_of (__init__ pg supabase_conn dbname schema_name d))
         = ["Successfully connected to Postgres."; fatal_text]
  | Raise (Exc _) =>
      prints (events_of (__init__ pg supabase_conn dbname schema_name d)) = []
      \/ prints (events_of (__init__ pg supabase_conn dbname schema_name d))
         = ["Successfully connected to Postgres."]
  end.
Proof.
  destruct supabase_conn as [dsn|]; open_init;
    by_answers ltac:(auto) ltac:(auto).
Qed.

End ConstructorFacts.

(** The executor constructed on the scripted database. *)
Lemma constructed_executor_witness :
  exists c d1,
    pg_connect Scripted.driver (connect_arguments _SUPABASE_CONN "postgres")
      (Scripted.start []) = (inr c, d1)
    /\ get_connection scripted_qe = Some c
    /\ _schema_name scripted_qe = "wine"
    /\ _dbname scripted_qe = "postgres".
Proof.
  exact (constructed_executor Scripted.driver _SUPABASE_CONN "postgres" "wine"
           (Scripted.start []) scripted_qe eq_refl).
Defined.

(** ** The order of the statements *)

Lemma firstn_prefix_app (A : Type) (n : nat) (l l' : list A) :
  exists n', firstn n l = firstn n' (l ++ l').
Proof.
  exists (Nat.min n (List.length l)).
  rewrite firstn_app.
  replace (Nat.min n (List.length l) - List.length l) with 0 by lia.
  rewrite firstn_O, app_nil_r.
  destruct (Nat.le_ge_cases n (List.length l)) as [H|H].
  - now rewrite Nat.min_l.
  - rewrite Nat.min_r by exact H. now rewrite !firstn_all2.
Qed.

Section Order.

Context {D : Type} (pg : psycopg2 D).

Lemma sends_seq (A B : Type) (c : M D A) (k : A -> M D B) (qs qs' : list string) :
  sends_in_order c qs -> (forall a, sends_in_order (k a) qs') ->
  sends_in_order (bind c k) (qs ++ qs').
Proof.
  intros Hc Hk d. destruct (Hc d) as [[n Hn] Hok].
  unfold bind, result_of, events_of in *.
  destruct (c d) as [[[a|x] d1] ev1]; cbn [fst snd] in *.
  - specialize (Hok a eq_refl).
    destruct (Hk a d1) as [[n' Hn'] Hok'].
    unfold result_of, events_of in *.
    destruct (k a d1) as [[r d2] ev2]; cbn [fst snd] in *.
    rewrite statements_app, Hok. split.
    + exists (List.length qs + n'). rewrite firstn_app_2. now rewrite Hn'.
    + intros b Hb. now rewrite (Hok' b Hb).
  - split; [|intros b Hb; discriminate Hb].
    rewrite Hn. apply firstn_prefix_app.
Qed.

Lemma sends_banner (title : string) : sends_in_order (@banner D title) [].
Proof.
  intros d. split; [exists 0; reflexivity | intros; reflexivity].
Qed.

Lemma sends_execute_query (self : QueryExecutor) (query : string) (print_results : bool) :
  sends_in_order (execute_query pg self query print_results) [query].
Proof.
  intros d. destruct (connection self) as [c|] eqn:Hc.
  - destruct (pg_open_cursor pg c d) as [[e|cur] d1] eqn:Ho.
    + run_block. rewrite Hc, Ho. unfold result_of, events_of.
      destruct e as [m|m]; simpl;
        (split; [exists 0; reflexivity | intros a H; discriminate H]).
    + destruct (pg_execute pg cur query d1) as [a d2] eqn:He.
      rewrite (execute_query_run pg _ _ print_results _ _ _ _ _ _ Hc Ho He).
      destruct a as [[m|m]|[]];
        try (split; [exists 1; reflexivity | intros a H; discriminate H]).
      assert (Hs : statements (events_of (rendering pg print_results cur d2)) = []).
      { unfold rendering. destruct print_results; [|reflexivity].
        apply print_result_set_trace. }
      destruct (rendering pg print_results cur d2) as [[r d3] evs].
      unfold result_of, events_of in *. cbn [fst snd] in *.
      cbn [app statements]. rewrite statements_app, Hs.
      split; [exists 1; reflexivity | intros; reflexivity].
  - run_block. rewrite Hc.
    split; [exists 0; reflexivity | intros a H; discriminate H].
Qed.

Lemma sends_exercise (title query : string) (qe : QueryExecutor) (B : Type)
    (rest : M D B) (qs : list string) :
  sends_in_order rest qs ->
  sends_in_order (banner title ;; execute_query pg qe query print_results_default ;; rest)
                 (query :: qs).
Proof.
  intros Hrest.
  apply (sends_seq _ _ (banner title) _ [] (query :: qs)); [apply sends_banner|].
  intros _.
  apply (sends_seq _ _ _ _ [query] qs); [apply sends_execute_query|].
  intros _. exact Hrest.
Qed.

Lemma sends_exercises (qe : QueryExecutor) :
  sends_in_order (exercises pg qe) nine_queries.
Proof.
  unfold exercises, nine_queries.
  repeat apply sends_exercise.
  apply (sends_seq _ _ (banner _) _ [] [query_7_18E]); [apply sends_banner|].
  intros _. apply sends_execute_query.
Qed.

(** The handler and the [finally] block of the main block send nothing. *)
Lemma main_statements (d : D) :
  statements (events_of (main pg d)) = statements (events_of (try_block pg d)).
Proof.
  rewrite main_eq. unfold try_finally, try_except_Exception, events_of.
  assert (Hc : forall d1,
             statements (snd (cleanup pg (constructed_qe pg d) d1)) = []).
  { intros d1. destruct (constructed_qe pg d) as [self|]; [|reflexivity].
    simpl. rewrite close_run. destruct (connection self); reflexivity. }
  destruct (try_block pg d) as [[[[]|[e|code]] d1] ev1]; cbn [snd].
  - specialize (Hc d1). destruct (cleanup pg (constructed_qe pg d) d1) as [[rc d2] ev2].
    cbn [snd] in *. now rewrite statements_app, Hc, app_nil_r.
  - unfold unexpected, bind, print, print_exc, emit. cbv beta iota.
    specialize (Hc d1). destruct (cleanup pg (constructed_qe pg d) d1) as [[rc d2] ev2].
    cbn [snd] in *. rewrite !statements_app, Hc. simpl. now rewrite !app_nil_r.
  - specialize (Hc d1). destruct (cleanup pg (constructed_qe pg d) d1) as [[rc d2] ev2].
    cbn [snd] in *. now rewrite statements_app, Hc, app_nil_r.
Qed.

(** X9: whatever the driver answers, the statements the program sends are
    the search-path statement and then the nine queries in the order of
    the script, up to the first call that does not return; all ten when
    the [try] block ends normally. *)
Theorem statements_in_order (d : D) :
  exists ident,
    (exists n,
        statements (events_of (main pg d))
        = firstn n (search_path_statement ident :: nine_queries))
    /\ (result_of (try_block pg d) = Ok tt ->
        statements (events_of (main pg d))
        = search_path_statement ident :: nine_queries).
Proof.
  rewrite main_statements.
  destruct (init_statements_shape pg _SUPABASE_CONN DB_NAME "wine" d)
    as [ident [Hshape Hok]].
  exists ident. unfold try_block, bind, result_of, events_of in *.
  destruct (__init__ pg _SUPABASE_CONN DB_NAME "wine" d) as [[[qe|x] d1] ev1];
    cbn [fst snd] in *.
  - specialize (Hok qe eq_refl).
    destruct (sends_exercises qe d1) as [[n Hn] Hall].
    unfold result_of, events_of in *.
    destruct (exercises pg qe d1) as [[r d2] ev2]; cbn [fst snd] in *.
    rewrite statements_app, Hok. split.
    + exists (S n). simpl. now rewrite Hn.
    + intros Hr. now rewrite (Hall tt Hr).
  - split; [|intros H; discriminate H].
    destruct Hshape as [-> | ->]; [exists 0 | exists 1]; reflexivity.
Qed.

(** X10: when the program sends a statement at all, it has first opened
    the connection and switched it to autocommit, both with success: the
    first two events of its trace are the call of [psycopg2.connect] and
    the assignment of [autocommit] on the connection that call returned,
    and the driver accepted both. *)
Theorem autocommit_before_statements (d : D) :
  statements (events_of (main pg d)) <> [] ->
  exists c d1 d2 rest,
    pg_connect pg (connect_arguments _SUPABASE_CONN DB_NAME) d = (inr c, d1)
    /\ pg_set_autocommit pg c true d1 = (inr tt, d2)
    /\ events_of (main pg d)
       = Connect (connect_arguments _SUPABASE_CONN DB_NAME)
         :: SetAutocommit c true :: rest.
Proof.
  rewrite main_statements. intros Hsent.
  assert (Htry : exists c d1 d2 rest,
             pg_connect pg (connect_arguments _SUPABASE_CONN DB_NAME) d = (inr c, d1)
             /\ pg_set_autocommit pg c true d1 = (inr tt, d2)
             /\ events_of (try_block pg d)
                = Connect (connect_arguments _SUPABASE_CONN DB_NAME)
                  :: SetAutocommit c true :: rest).
  { pose proof (init_autocommit_first pg _SUPABASE_CONN DB_NAME "wine" d) as Hinit.
    unfold try_block, bind, result_of, events_of in *.
    destruct (__init__ pg _SUPABASE_CONN DB_NAME "wine" d) as [[[qe|x] d1] ev1];
      cbn [fst snd] in *.
    - destruct Hinit as (c & d1' & d2' & rest & Hconn & Hauto & ->);
        [right; now exists qe|].
      destruct (exercises pg qe d1) as [[r d2] ev2]; cbn [snd].
      exists c, d1', d2', (rest ++ ev2)%list. now repeat split.
    - apply Hinit. now left. }
  destruct Htry as (c & d1' & d2' & rest & Hconn & Hauto & Htry).
  exists c, d1', d2'.
  rewrite main_eq. unfold try_finally, try_except_Exception, events_of in *.
  destruct (try_block pg d) as [[[[]|[e|code]] d1] ev1]; cbn [snd] in *; subst ev1.
  - destruct (cleanup pg (constructed_qe pg d) d1) as [[rc d2] ev2].
    exists (rest ++ ev2)%list. now repeat split.
  - destruct (unexpected e d1) as [[rh d2] ev2].
    destruct (cleanup pg (constructed_qe pg d) d2) as [[rc d3] ev3].
    exists ((rest ++ ev2) ++ ev3)%list. now repeat split.
  - destruct (cleanup pg (constructed_qe pg d) d1) as [[rc d2] ev2].
    exists (rest ++ ev2)%list. now repeat split.
Qed.

End Order.

(** On the scripted database with every answer a success. *)
Lemma statements_in_order_witness :
  exists ident,
    statements (events_of (main Scripted.driver (Scripted.start [])))
    = search_path_statement ident :: nine_queries.
Proof.
  destruct (statements_in_order Scripted.driver (Scripted.start []))
    as [ident [_ Hall]].
  exists ident. exact (Hall eq_refl).
Defined.

(** The same run: it sends statements, and starts as said. *)
Lemma autocommit_before_statements_witness :
  exists c d1 d2 rest,
    pg_connect Scripted.driver (connect_arguments _SUPABASE_CONN DB_NAME)
      (Scripted.start []) = (inr c, d1)
    /\ pg_set_autocommit Scripted.driver c true d1 = (inr tt, d2)
    /\ events_of (main Scripted.driver (Scripted.start []))
       = Connect (connect_arguments _SUPABASE_CONN DB_NAME)
         :: SetAutocommit c true :: rest.
Proof.
  apply (autocommit_before_statements Scripted.driver (Scripted.start [])).
  vm_compute. discriminate.
Defined.

(** ** The connection, from the first call to the last *)

Section Lifecycle.

Context {D : Type} (pg : psycopg2 D).

Lemma avoids_bind (p : event -> bool) (A B : Type) (c : M D A) (k : A -> M D B) :
  avoids p c -> (forall a, avoids p (k a)) -> avoids p (bind c k).
Proof.
  intros Hc Hk d. specialize (Hc d). unfold bind, events_of in *.
  destruct (c d) as [[[a|x] d1] ev1]; cbn [snd] in *; [|exact Hc].
  specialize (Hk a d1). unfold events_of in Hk.
  destruct (k a d1) as [[r d2] ev2]; cbn [snd] in *.
  now rewrite existsb_app, Hc, Hk.
Qed.

Lemma execute_query_keeps_connection (self : QueryExecutor) (query : string)
    (print_results : bool) :
  avoids is_connection_event (execute_query pg self query print_results).
Proof.
  intros d. destruct (connection self) as [c|] eqn:Hc.
  - destruct (pg_open_cursor pg c d) as [[e|cur] d1] eqn:Ho.
    + run_block. rewrite Hc, Ho. destruct e; reflexivity.
    + destruct (pg_execute pg cur query d1) as [a d2] eqn:He.
      rewrite (execute_query_run pg _ _ print_results _ _ _ _ _ _ Hc Ho He).
      destruct a as [[m|m]|[]]; try reflexivity.
      assert (Hr : existsb is_connection_event
                     (events_of (rendering pg print_results cur d2)) = false).
      { unfold rendering. destruct print_results; [|reflexivity].
        apply print_result_set_trace. }
      destruct (rendering pg print_results cur d2) as [[r d3] evs].
      unfold events_of in *. cbn [snd] in *.
      cbn [app existsb is_connection_event orb].
      now rewrite existsb_app, Hr.
  - run_block. rewrite Hc. reflexivity.
Qed.

Lemma execute_keeps_connection (self : QueryExecutor) (query : string) :
  avoids is_connection_event (execute pg self query).
Proof.
  intros d. destruct (connection self) as [c|] eqn:Hc.
  - destruct (pg_open_cursor pg c d) as [[e|cur] d1] eqn:Ho.
    + run_block. rewrite Hc, Ho. destruct e; reflexivity.
    + destruct (pg_execute pg cur query d1) as [a d2] eqn:He.
      rewrite (execute_run pg _ _ _ _ _ _ _ _ Hc Ho He).
      destruct a as [[m|m]|[]]; reflexivity.
  - run_block. rewrite Hc. reflexivity.
Qed.

Lemma banner_keeps_connection (title : string) :
  avoids is_connection_event (@banner D title).
Proof. intros d. reflexivity. Qed.

Lemma exercises_keep_connection (qe : QueryExecutor) :
  avoids is_connection_event (exercises pg qe).
Proof.
  unfold exercises.
  repeat (apply avoids_bind;
          [first [apply banner_keeps_connection
                 | apply execute_query_keeps_connection]|];
          intros _).
  apply execute_query_keeps_connection.
Qed.

Lemma try_block_connection :
  forall d,
    connects (events_of (try_block pg d)) = [connect_arguments _SUPABASE_CONN DB_NAME]
    /\ conn_closes (events_of (try_block pg d)) = [].
Proof.
  intros d.
  destruct (init_connects pg _SUPABASE_CONN DB_NAME "wine" d) as (rest & Hev & Hrest).
  pose proof (no_conn_close _ (fun c => init_no_close pg _SUPABASE_CONN DB_NAME "wine" d c))
    as Hnc.
  unfold try_block, bind, events_of in *.
  destruct (__init__ pg _SUPABASE_CONN DB_NAME "wine" d) as [[[qe|x] d1] ev1];
    cbn [snd] in *.
  - destruct (no_connection_event _ (exercises_keep_connection qe d1)) as [Hc Hcc].
    unfold events_of in *.
    destruct (exercises pg qe d1) as [[r d2] ev2]; cbn [snd] in *.
    rewrite connects_app, conn_closes_app, Hc, Hcc, Hnc, Hev. simpl.
    now rewrite Hrest.
  - rewrite Hnc, Hev. simpl. now rewrite Hrest.
Qed.

(** The connection events of a run of the program. *)
Lemma main_connection (d : D) :
  (forall self query print_results d',
      connects (events_of (execute pg self query d')) = []
      /\ conn_closes (events_of (execute pg self query d')) = []
      /\ connects (events_of (execute_query pg self query print_results d')) = []
      /\ conn_closes (events_of (execute_query pg self query print_results d')) = [])
  /\ connects (events_of (main pg d)) = [connect_arguments _SUPABASE_CONN DB_NAME]
  /\ conn_closes (events_of (main pg d))
     = match constructed_qe pg d with
       | Some self =>
           match get_connection self with
           | Some c => [c]
           | None => []
           end
       | None => []
       end.
Proof.
  split.
  { intros self query print_results d'.
    destruct (no_connection_event _ (execute_keeps_connection self query d')).
    destruct (no_connection_event _
                (execute_query_keeps_connection self query print_results d')).
    repeat split; assumption. }
  destruct (try_block_connection d) as [Hc Hcc].
  rewrite main_eq. unfold try_finally, try_except_Exception, events_of in *.
  assert (Hclean : forall d1,
             connects (snd (cleanup pg (constructed_qe pg d) d1)) = []
             /\ conn_closes (snd (cleanup pg (constructed_qe pg d) d1))
                = match constructed_qe pg d with
                  | Some self =>
                      match get_connection self with
                      | Some c => [c]
                      | None => []
                      end
                  | None => []
                  end).
  { intros d1. destruct (constructed_qe pg d) as [self|]; [|now split].
    simpl. rewrite close_run. unfold get_connection.
    destruct (connection self); now split. }
  destruct (try_block pg d) as [[[[]|[e|code]] d1] ev1]; cbn [snd] in *.
  - destruct (Hclean d1) as [H1 H2].
    destruct (cleanup pg (constructed_qe pg d) d1) as [[rc d2] ev2]; cbn [snd] in *.
    now rewrite connects_app, conn_closes_app, Hc, Hcc, H1, H2.
  - unfold unexpected, bind, print, print_exc, emit. cbv beta iota.
    destruct (Hclean d1) as [H1 H2].
    destruct (cleanup pg (constructed_qe pg d) d1) as [[rc d2] ev2]; cbn [snd] in *.
    rewrite !connects_app, !conn_closes_app, Hc, Hcc, H1, H2. now split.
  - destruct (Hclean d1) as [H1 H2].
    destruct (cleanup pg (constructed_qe pg d) d1) as [[rc d2] ev2]; cbn [snd] in *.
    now rewrite connects_app, conn_closes_app, Hc, Hcc, H1, H2.
Qed.

(** X11: [execute] and [execute_query] neither open nor close a
    connection; the program calls [psycopg2.connect] exactly once, and it
    closes the connection exactly once, the one the executor holds, when
    the executor was constructed, and never otherwise. *)
Theorem connection_lifecycle (d : D) :
  (forall self query print_results d',
      connects (events_of (execute pg self query d')) = []
      /\ conn_closes (events_of (execute pg self query d')) = []
      /\ connects (events_of (execute_query pg self query print_results d')) = []
      /\ conn_closes (events_of (execute_query pg self query print_results d')) = [])
  /\ connects (events_of (main pg d)) = [connect_arguments _SUPABASE_CONN DB_NAME]
  /\ match constructed_qe pg d with
     | Some self =>
         exists c, get_connection self = Some c
                   /\ conn_closes (events_of (main pg d)) = [c]
     | None => conn_closes (events_of (main pg d)) = []
     end.
Proof.
  destruct (main_connection d) as (Hmethods & Hconnects & Hcloses).
  split; [exact Hmethods|]. split; [exact Hconnects|].
  rewrite Hcloses. unfold constructed_qe.
  destruct (result_of (__init__ pg _SUPABASE_CONN DB_NAME "wine" d))
    as [self|x] eqn:Hinit; [|reflexivity].
  destruct (init_ok_connected pg _ _ _ _ _ Hinit) as [c Hc].
  exists c. unfold get_connection. rewrite Hc. now split.
Qed.

Lemma classified_block (A : Type) (c : M D A) :
  orderly c -> exits_with_zero c -> keeps_db_errors c ->
  forall d, classified (result_of (c d)) (events_of (c d)).
Proof.
  intros Ho Hz Hk d. specialize (Ho d). specialize (Hz d). specialize (Hk d).
  unfold classified.
  destruct (result_of (c d)) as [a|[[m|m]|code]]; auto.
  exfalso. exact (Hk m eq_refl).
Qed.

(** X14: however the driver answers any of its calls, the constructor,
    [execute] and [execute_query] end in one of three ways: normally or
    with an exception that is not a database error, and then no database
    error was reported; or with [SystemExit] and code 0, the report of the
    fatal-error procedure being the first report of a database error in
    the trace, followed by cleanup only.  A database error never reaches
    the caller. *)
Theorem calls_classified (supabase_conn : option string) (dbname schema_name : string)
    (self : QueryExecutor) (query : string) (print_results : bool) (d : D) :
  classified (result_of (__init__ pg supabase_conn dbname schema_name d))
             (events_of (__init__ pg supabase_conn dbname schema_name d))
  /\ classified (result_of (execute pg self query d))
                (events_of (execute pg self query d))
  /\ classified (result_of (execute_query pg self query print_results d))
                (events_of (execute_query pg self query print_results d)).
Proof.
  split; [|split].
  - apply classified_block.
    + apply orderly_init.
    + unfold __init__. apply exits_initialize.
    + apply keeps_init.
  - apply classified_block.
    + apply orderly_execute.
    + apply exits_execute.
    + unfold execute, _print_execution_message.
      apply keeps_bind; [apply keeps_guard | intros _; apply keeps_print].
  - apply classified_block.
    + apply orderly_execute_query.
    + apply exits_execute_query.
    + unfold execute_query. apply keeps_guard.
Qed.

End Lifecycle.
